(** * SafetySync analytics platform: ingestion pipeline and analytics engine

    A shallow embedding of [backend/app/services/ ingestion.py]
    ([DataIngestionPipeline]) and [backend/app/services/analytics.py]
    ([AnalyticsEngine]), together with the parts of
    [backend/app/core/config.py] and [backend/app/models/database.py] that
    they read.

    Conventions of the embedding.
    - A Python [float] is a binary64 primitive float; comparisons and the
      division are the IEEE ones of [PrimFloat].
    - A [datetime] is an instant in microseconds together with the flag
      saying whether it carries a [tzinfo]; Python refuses to order a naive
      and an aware datetime ([TypeError]).
    - A reading as it arrives is a [Dict[str, Any]]: a [gmap string pyval].
    - Code that mutates [self.stats] and talks to the SQLAlchemy session is
      written in a state-and-exception monad: an exception leaves the
      mutations done so far in place, as in Python.
    - The session is a record of tables plus the rows of the open
      transaction; every round trip to the database consumes one entry of a
      fault schedule and raises when that entry says so.
    - [logger] calls have no effect on any value and are left out.
    - All clock reads of one call ([datetime.utcnow()]) return the same
      instant [now]; the elapsed time measured with [time.time()] is an
      input. *)

From Stdlib Require Import ZArith Uint63 Floats Lia Ascii String.
From stdpp Require Import base option list sorting strings gmap.
From stdpp Require Import pretty.

#[local] Set Warnings "-inexact-float".

(** ** Python values *)

Record datetime := mk_datetime {
  instant : Z;       (* microseconds since the epoch, read in UTC *)
  tz_aware : bool    (* tzinfo is set *)
}.

Inductive pyval :=
| VNone
| VInt (z : Z)
| VFloat (f : float)
| VStr (s : string)
| VDatetime (d : datetime)
| VDict (d : list (string * string)).

#[global] Instance float_eq_dec : EqDecision float.
Proof.
  intros x y. destruct (PrimFloat.Leibniz.eqb x y) eqn:E.
  - left. by apply FloatAxioms.Leibniz.eqb_spec.
  - right. intros Hxy. apply FloatAxioms.Leibniz.eqb_spec in Hxy. congruence.
Defined.

#[global] Instance datetime_eq_dec : EqDecision datetime.
Proof. solve_decision. Defined.

#[global] Instance pyval_eq_dec : EqDecision pyval.
Proof. solve_decision. Defined.

(** ** Exceptions and the state-and-exception monad *)

Inductive exn :=
| ValueError
| TypeError
| KeyError
| OverflowError
| ZeroDivisionError
| IndexError
| SQLAlchemyError.

#[global] Instance exn_eq_dec : EqDecision exn.
Proof. solve_decision. Defined.

Inductive outcome (A : Type) :=
| Return (a : A)
| Raise (e : exn).
Arguments Return {A} a.
Arguments Raise {A} e.

Definition M (S A : Type) : Type := S → outcome A * S.

Definition ret {S A} (a : A) : M S A := fun s => (Return a, s).

Definition raise {S A} (e : exn) : M S A := fun s => (Raise e, s).

Definition bind {S A B} (m : M S A) (k : A → M S B) : M S B :=
  fun s =>
    match m s with
    | (Return a, s') => k a s'
    | (Raise e, s') => (Raise e, s')
    end.

Notation "'let*' x ':=' m 'in' k" := (bind m (fun x => k))
  (at level 10, x pattern, m at level 100, k at level 200).

Definition lift {S A} (o : outcome A) : M S A := fun s => (o, s).

Definition get {S} : M S S := fun s => (Return s, s).

Definition modify {S} (f : S → S) : M S unit := fun s => (Return tt, f s).

(** [try: body except (classes) as e: handler e]: the exceptions of [body]
    that [catches] are handled, the others go on. *)
Definition try_except {S A} (body : M S A) (catches : exn → bool)
    (handler : exn → M S A) : M S A :=
  fun s =>
    match body s with
    | (Return a, s') => (Return a, s')
    | (Raise e, s') => if catches e then handler e s' else (Raise e, s')
    end.

(** [except Exception]: every exception of the model is an [Exception]. *)
Definition Exception (e : exn) : bool := true.

(** Running a computation of a component on that component of the state. *)
Definition zoom {S T A} (proj : S → T) (inj : T → S → S) (m : M T A) : M S A :=
  fun s => let '(o, t) := m (proj s) in (o, inj t s).

(** A [for] loop whose body may raise. *)
Fixpoint for_each {S A} (l : list A) (body : A → M S unit) : M S unit :=
  match l with
  | [] => ret tt
  | x :: rest => let* _ := body x in for_each rest body
  end.

(** A list comprehension [[x for x in l if p x]] whose test may raise. *)
Fixpoint comprehension {A} (p : A → outcome bool) (l : list A) : outcome (list A) :=
  match l with
  | [] => Return []
  | x :: rest =>
      match p x with
      | Raise e => Raise e
      | Return b =>
          match comprehension p rest with
          | Raise e => Raise e
          | Return rest' => Return (if b then x :: rest' else rest')
          end
      end
  end.

(** ** Builtins of the Python runtime that the code calls

    The two parsers are library code; each is taken with the exception it
    raises on failure. *)
Class Builtins := {
  (* float(s) for a str: [None] is ValueError *)
  float_of_str : string → option float;
  (* datetime.fromisoformat(s): [None] is ValueError *)
  fromisoformat : string → option datetime
}.

(** [float(n)] for an int: the nearest binary64 value, ties to even, and
    an [OverflowError] when that is beyond the largest float. *)
Definition float_of_int (n : Z) : outcome float :=
  let f := SF2Prim (binary_normalize prec emax n 0 false) in
  if is_infinity f then Raise OverflowError else Return f.

(** [float(v)] *)
Definition py_float `{Builtins} (v : pyval) : outcome float :=
  match v with
  | VFloat f => Return f
  | VInt z => float_of_int z
  | VStr s =>
      match float_of_str s with Some f => Return f | None => Raise ValueError end
  | VNone | VDatetime _ | VDict _ => Raise TypeError
  end.

(** [s.replace("Z", "+00:00")] *)
Fixpoint replace_Z (s : string) : string :=
  match s with
  | EmptyString => EmptyString
  | String c rest =>
      if Ascii.eqb c "Z"%char then ("+00:00" +:+ replace_Z rest)%string
      else String c (replace_Z rest)
  end.

(** [reading[key]] *)
Definition getitem (reading : gmap string pyval) (key : string) : outcome pyval :=
  match reading !! key with
  | Some v => Return v
  | None => Raise KeyError
  end.

(** [v >= cutoff] and [v < cutoff] against a datetime. *)
Definition comparable (v : pyval) (cutoff : datetime) : outcome datetime :=
  match v with
  | VDatetime d =>
      if bool_decide (tz_aware d = tz_aware cutoff) then Return d else Raise TypeError
  | _ => Raise TypeError
  end.

Definition py_ge (v : pyval) (cutoff : datetime) : outcome bool :=
  match comparable v cutoff with
  | Return d => Return (instant cutoff <=? instant d)%Z
  | Raise e => Raise e
  end.

Definition py_lt (v : pyval) (cutoff : datetime) : outcome bool :=
  match comparable v cutoff with
  | Return d => Return (instant d <? instant cutoff)%Z
  | Raise e => Raise e
  end.

(** ** app.core.config *)
Module config.

Record Settings := {
  MAX_BATCH_SIZE : Z;
  MAX_DUPLICATE_RATE : float;
  MAX_INVALID_RATE : float;
  MAX_LATE_ARRIVAL_MINUTES : Z;
  GAS_DETECTION_THRESHOLD : float;
  TEMPERATURE_THRESHOLD : float;
  PRESSURE_THRESHOLD : float
}.

(** The defaults of the class [Settings]; the environment may override
    them, so the services take the settings as an argument. *)
Definition settings : Settings := {|
  MAX_BATCH_SIZE := 1000;
  MAX_DUPLICATE_RATE := 0.05;
  MAX_INVALID_RATE := 0.10;
  MAX_LATE_ARRIVAL_MINUTES := 60;
  GAS_DETECTION_THRESHOLD := 10.0;
  TEMPERATURE_THRESHOLD := 60.0;
  PRESSURE_THRESHOLD := 150.0
|}.

End config.

(** ** app.models.database *)
Module database.

Inductive EquipmentType :=
| GAS_DETECTOR
| TEMPERATURE_SENSOR
| PRESSURE_SENSOR
| LOCATION_TRACKER
| AIR_QUALITY_MONITOR.

Inductive AlertSeverity := INFO | WARNING | CRITICAL | EMERGENCY.

(** [EquipmentType.value] *)
Definition value (t : EquipmentType) : string :=
  match t with
  | GAS_DETECTOR => "gas_detector"
  | TEMPERATURE_SENSOR => "temperature_sensor"
  | PRESSURE_SENSOR => "pressure_sensor"
  | LOCATION_TRACKER => "location_tracker"
  | AIR_QUALITY_MONITOR => "air_quality_monitor"
  end.

Module Equipment.
Record t := mk {
  equipment_id : string;
  equipment_type : EquipmentType;
  last_calibration_date : option Z
}.
End Equipment.

(** A row of [sensor_readings]; its primary key is
    [(time, equipment_id, metric_name)]. *)
Module SensorReading.
Record t := mk {
  time : Z;
  equipment_id : string;
  metric_name : string;
  metric_value : float;
  metric_unit : pyval;
  reading_status : pyval;
  metadata : pyval
}.
End SensorReading.

Module Alert.
Record t := mk {
  equipment_id : string;
  triggered_at : Z
}.
End Alert.

(** A row of the continuous aggregate [sensor_readings_hourly]. *)
Module HourlyBucket.
Record t := mk {
  bucket : Z;
  equipment_id : string;
  metric_name : string;
  avg_value : float;
  min_value : float;
  max_value : float;
  stddev_value : float
}.
End HourlyBucket.

Module DataQualityMetric.
Record t := mk {
  total_records_processed : nat;
  invalid_records : nat;
  duplicate_records : nat;
  late_arriving_records : nat;
  processing_time_ms : Z;
  pipeline_stage : string;
  (* metadata *)
  duplicate_rate : float;
  invalid_rate : float
}.
End DataQualityMetric.

(** The SQLAlchemy session over the database: the committed tables, what
    the open transaction has written so far, and the faults to come (one
    entry per round trip, [true] = this one raises). *)
Record Session := mkSession {
  equipment : list Equipment.t;
  sensor_readings : list SensorReading.t;
  sensor_readings_hourly : list HourlyBucket.t;
  alerts : list Alert.t;
  data_quality_metrics : list DataQualityMetric.t;
  new_readings : list SensorReading.t;
  new_metrics : list DataQualityMetric.t;
  faults : list bool
}.

Definition set_faults (fs : list bool) (db : Session) : Session :=
  mkSession (equipment db) (sensor_readings db) (sensor_readings_hourly db)
    (alerts db) (data_quality_metrics db) (new_readings db) (new_metrics db) fs.

Definition set_new_readings (rows : list SensorReading.t) (db : Session) : Session :=
  mkSession (equipment db) (sensor_readings db) (sensor_readings_hourly db)
    (alerts db) (data_quality_metrics db) rows (new_metrics db) (faults db).

Definition set_new_metrics (ms : list DataQualityMetric.t) (db : Session) : Session :=
  mkSession (equipment db) (sensor_readings db) (sensor_readings_hourly db)
    (alerts db) (data_quality_metrics db) (new_readings db) ms (faults db).

(** One round trip: raises when the schedule says so, and runs [f] on the
    session otherwise. An exhausted schedule means no more faults. *)
Definition round_trip {A} (f : Session → outcome A * Session) : M Session A :=
  fun db =>
    match faults db with
    | true :: fs => (Raise SQLAlchemyError, set_faults fs db)
    | false :: fs => f (set_faults fs db)
    | [] => f db
    end.

(** The first row of [equipment] whose key is [eid]; only a string can
    equal the key of a row. *)
Definition first_equipment (eid : pyval) (db : Session) : option Equipment.t :=
  match eid with
  | VStr s => List.find (fun e => bool_decide (Equipment.equipment_id e = s)) (equipment db)
  | _ => None
  end.

(** [db.query(Equipment).filter(Equipment.equipment_id == eid).first()] *)
Definition query_equipment (eid : pyval) : M Session (option Equipment.t) :=
  round_trip (fun db => (Return (first_equipment eid db), db)).

(** The natural key of a row, and the rows the transaction sees. *)
Definition key_of (r : SensorReading.t) : Z * string * string :=
  (SensorReading.time r, SensorReading.equipment_id r, SensorReading.metric_name r).

Definition visible_readings (db : Session) : list SensorReading.t :=
  sensor_readings db ++ new_readings db.

(** [INSERT ... ON CONFLICT DO NOTHING] of one row. *)
Definition insert_row (db : Session) (r : SensorReading.t) : Session :=
  if bool_decide (key_of r ∈ map key_of (visible_readings db)) then db
  else set_new_readings (new_readings db ++ [r]) db.

(** [db.execute(insert_stmt, batch)] with the rows already bound. A
    parameter set that does not fit the columns ([None] when the batch held
    a value the column types refuse) makes the statement fail. *)
Definition execute_insert (batch : list (option SensorReading.t)) : M Session unit :=
  round_trip (fun db =>
    match mapM id batch with
    | Some rows => (Return tt, foldl insert_row db rows)
    | None => (Raise SQLAlchemyError, db)
    end).

(** [db.add(metric)] *)
Definition add (metric : DataQualityMetric.t) : M Session unit :=
  modify (fun db => set_new_metrics (new_metrics db ++ [metric]) db).

(** [db.commit()] *)
Definition commit : M Session unit :=
  round_trip (fun db =>
    (Return tt,
     mkSession (equipment db) (sensor_readings db ++ new_readings db)
       (sensor_readings_hourly db) (alerts db)
       (data_quality_metrics db ++ new_metrics db) [] [] (faults db))).

(** [db.rollback()] *)
Definition rollback : M Session unit :=
  round_trip (fun db =>
    (Return tt,
     mkSession (equipment db) (sensor_readings db) (sensor_readings_hourly db)
       (alerts db) (data_quality_metrics db) [] [] (faults db))).

(** [ORDER BY time ASC] and [ORDER BY time DESC] *)
Definition order_by_asc {A} (time : A → Z) (rows : list A) : list A :=
  @merge_sort A (λ a b, (time a ≤ time b)%Z)
    (λ a b, decide (time a ≤ time b)%Z) rows.

Definition order_by_desc {A} (time : A → Z) (rows : list A) : list A :=
  @merge_sort A (λ a b, (time b ≤ time a)%Z)
    (λ a b, decide (time b ≤ time a)%Z) rows.

(** The query of [detect_anomalies]. *)
Definition select_readings (equipment_id metric_name : string) (cutoff_time : Z)
    : M Session (list SensorReading.t) :=
  round_trip (fun db =>
    (Return (order_by_asc SensorReading.time
       (filter (λ r, SensorReading.equipment_id r = equipment_id
                     ∧ SensorReading.metric_name r = metric_name
                     ∧ (cutoff_time < SensorReading.time r)%Z)
          (visible_readings db))), db)).

(** The query of [check_thresholds]. *)
Definition select_violations (equipment_id metric_name : string) (cutoff_time : Z)
    (threshold : float) : M Session (list SensorReading.t) :=
  round_trip (fun db =>
    (Return (take 10 (order_by_desc SensorReading.time
       (filter (λ r, SensorReading.equipment_id r = equipment_id
                     ∧ SensorReading.metric_name r = metric_name
                     ∧ (cutoff_time < SensorReading.time r)%Z
                     ∧ (threshold <? SensorReading.metric_value r)%float = true)
          (visible_readings db)))), db)).

(** The query of [analyze_trends]. *)
Definition select_hourly (equipment_id metric_name : string) (cutoff_time : Z)
    : M Session (list HourlyBucket.t) :=
  round_trip (fun db =>
    (Return (order_by_asc HourlyBucket.bucket
       (filter (λ b, HourlyBucket.equipment_id b = equipment_id
                     ∧ HourlyBucket.metric_name b = metric_name
                     ∧ (cutoff_time < HourlyBucket.bucket b)%Z)
          (sensor_readings_hourly db))), db)).

(** The two counts of [predict_maintenance]. *)
Definition count_alerts (equipment_id : string) (since : Z) : M Session Z :=
  round_trip (fun db =>
    (Return (Z.of_nat (length (filter (λ a, Alert.equipment_id a = equipment_id
                                  ∧ (since < Alert.triggered_at a)%Z)
                       (alerts db)))), db)).

Definition count_readings (equipment_id : string) (since : Z) : M Session Z :=
  round_trip (fun db =>
    (Return (Z.of_nat (length (filter (λ r, SensorReading.equipment_id r = equipment_id
                                  ∧ (since < SensorReading.time r)%Z)
                       (visible_readings db)))), db)).

End database.

(** ** app.services.ingestion: [DataIngestionPipeline] *)
Module ingestion.
Import config database.

(** [self.stats] *)
Record Stats := mkStats {
  total_processed : nat;
  invalid : nat;
  duplicates : nat;
  late_arrivals : nat
}.

(** The pipeline object: [self.db] and [self.stats] ([self.buffer] is
    created empty and never used). *)
Record DataIngestionPipeline := mkPipeline {
  db : Session;
  stats : Stats
}.

Definition __init__ (db : Session) : DataIngestionPipeline :=
  mkPipeline db (mkStats 0 0 0 0).

Definition P := M DataIngestionPipeline.

Definition on_db {A} (m : M Session A) : P A :=
  zoom db (fun d p => mkPipeline d (stats p)) m.

Definition update_stats (f : Stats → Stats) : P unit :=
  modify (fun p => mkPipeline (db p) (f (stats p))).

(** [self.stats["invalid"] += 1] and its three siblings. *)
Definition add_invalid (n : nat) : P unit :=
  update_stats (fun st =>
    mkStats (total_processed st) (invalid st + n) (duplicates st) (late_arrivals st)).

Definition add_total_processed (n : nat) : P unit :=
  update_stats (fun st =>
    mkStats (total_processed st + n) (invalid st) (duplicates st) (late_arrivals st)).

Definition add_duplicates (n : nat) : P unit :=
  update_stats (fun st =>
    mkStats (total_processed st) (invalid st) (duplicates st + n) (late_arrivals st)).

Definition add_late_arrivals (n : nat) : P unit :=
  update_stats (fun st =>
    mkStats (total_processed st) (invalid st) (duplicates st) (late_arrivals st + n)).

(** A validated reading: the dict that [_validate_readings] appends. *)
Module Reading.
Record t := mk {
  time : pyval;
  equipment_id : pyval;
  metric_name : pyval;
  metric_value : float;
  metric_unit : pyval;
  reading_status : pyval;
  metadata : pyval
}.
End Reading.

(** What [ingest_batch] returns: the dict with [success: True] and the
    counts, or the one with [success: False] and the error. *)
Inductive IngestionResult :=
| Success (total_received total_inserted invalid_count duplicate_count
           late_arrival_count : nat) (processing_time_ms : Z)
| Failure (error : exn) (total_received : nat).

Definition ranges : gmap string (float * float) :=
  list_to_map [
    ("gas_concentration", ((-0.1)%float, 10000%float));
    ("temperature", ((-50)%float, 200%float));
    ("pressure", (0%float, 1000%float));
    ("humidity", (0%float, 100%float));
    ("battery_level", (0%float, 100%float))
  ].

(** [ranges.get(metric_name, (-1e6, 1e6))]: a key that is not a string is
    never in [ranges]; a dict cannot be hashed. *)
Definition ranges_get (metric_name : pyval) : outcome (float * float) :=
  match metric_name with
  | VStr s => Return (default ((-1e6)%float, 1e6%float) (ranges !! s))
  | VDict _ => Raise TypeError
  | _ => Return ((-1e6)%float, 1e6%float)
  end.

Definition _is_value_reasonable (metric_name : pyval) (value : float) : outcome bool :=
  match ranges_get metric_name with
  | Raise e => Raise e
  | Return (min_val, max_val) =>
      Return ((min_val <=? value)%float && (value <=? max_val)%float
              && negb (is_nan value) && negb (is_infinity value))
  end.

Definition required_fields : list string :=
  ["equipment_id"; "metric_name"; "metric_value"; "time"].

(** [except (ValueError, TypeError, KeyError)] *)
Definition validation_errors (e : exn) : bool :=
  bool_decide (e ∈ [ValueError; TypeError; KeyError]).

(** The body of the loop of [_validate_readings] on one reading: [Some r]
    when [r] is appended to [validated], [None] when the loop goes on
    without an append. *)
Definition validate_reading `{Builtins} (reading : gmap string pyval)
    : P (option Reading.t) :=
  try_except
    (if negb (forallb (fun field => bool_decide (is_Some (reading !! field)))
                required_fields)
     then
       let* _ := add_invalid 1 in ret None
     else
       let* raw := lift (getitem reading "metric_value") in
       let* metric_value := lift (py_float raw) in
       let* time := lift (getitem reading "time") in
       let* timestamp :=
         match time with
         | VStr s =>
             match fromisoformat (replace_Z s) with
             | Some d => ret (VDatetime d)
             | None => raise ValueError
             end
         | _ => ret time
         end in
       let* metric_name := lift (getitem reading "metric_name") in
       let* reasonable := lift (_is_value_reasonable metric_name metric_value) in
       if negb reasonable then
         let* _ := add_invalid 1 in ret None
       else
         let* equipment_id := lift (getitem reading "equipment_id") in
         let* equipment_exists := on_db (query_equipment equipment_id) in
         if negb (bool_decide (is_Some equipment_exists)) then
           let* _ := add_invalid 1 in ret None
         else
           ret (Some {|
             Reading.time := timestamp;
             Reading.equipment_id := equipment_id;
             Reading.metric_name := metric_name;
             Reading.metric_value := metric_value;
             Reading.metric_unit := default VNone (reading !! "metric_unit");
             Reading.reading_status :=
               default (VStr "normal") (reading !! "reading_status");
             Reading.metadata := default (VDict []) (reading !! "metadata")
           |}))
    validation_errors
    (fun _ => let* _ := add_invalid 1 in ret None).

Fixpoint validate_loop `{Builtins} (readings : list (gmap string pyval))
    : P (list Reading.t) :=
  match readings with
  | [] => ret []
  | reading :: rest =>
      let* v := validate_reading reading in
      let* validated := validate_loop rest in
      ret (match v with Some r => r :: validated | None => validated end)
  end.

Definition _validate_readings `{Builtins} (readings : list (gmap string pyval))
    : P (list Reading.t) :=
  let* validated := validate_loop readings in
  let* _ := add_total_processed (length readings) in
  ret validated.

(** The columns [drop_duplicates] compares. *)
Definition subset (r : Reading.t) : pyval * pyval * pyval :=
  (Reading.equipment_id r, Reading.metric_name r, Reading.time r).

(** [df.drop_duplicates(subset=..., keep="first")]: a row stays unless an
    earlier row has the same values in the columns of [subset]. *)
Fixpoint drop_duplicates (seen : list (pyval * pyval * pyval)) (df : list Reading.t)
    : list Reading.t :=
  match df with
  | [] => []
  | r :: rest =>
      if bool_decide (subset r ∈ seen) then drop_duplicates seen rest
      else r :: drop_duplicates (subset r :: seen) rest
  end.

Definition unhashable (v : pyval) : bool :=
  match v with VDict _ => true | _ => false end.

(** [_deduplicate]; taking the records through a DataFrame and back is the
    identity on them, and pandas cannot hash a dict in a compared column. *)
Definition _deduplicate (readings : list Reading.t) : P (list Reading.t) :=
  match readings with
  | [] => ret []
  | _ =>
      let df := readings in
      let initial_count := length df in
      if existsb (fun r => let '(e, m, t) := subset r in
                           unhashable e || unhashable m || unhashable t) df
      then raise TypeError
      else
        let df_unique := drop_duplicates [] df in
        let duplicates_removed := initial_count - length df_unique in
        let* _ := add_duplicates duplicates_removed in
        ret df_unique
  end.

(** [now - timedelta(minutes=MAX_LATE_ARRIVAL_MINUTES)], with [now] from
    [datetime.utcnow()], which has no tzinfo. *)
Definition cutoff (cfg : Settings) (now : Z) : datetime :=
  mk_datetime (now - MAX_LATE_ARRIVAL_MINUTES cfg * 60000000) false.

Definition _check_timeliness (cfg : Settings) (now : Z) (readings : list Reading.t)
    : outcome (list Reading.t * list Reading.t) :=
  match readings with
  | [] => Return ([], [])
  | _ =>
      match comprehension (fun r => py_ge (Reading.time r) (cutoff cfg now)) readings with
      | Raise e => Raise e
      | Return on_time =>
          match comprehension (fun r => py_lt (Reading.time r) (cutoff cfg now)) readings with
          | Raise e => Raise e
          | Return late => Return (on_time, late)
          end
      end
  end.

(** The parameters of the insert statement for one reading, when they fit
    the columns of [sensor_readings]. *)
Definition bind_params (r : Reading.t) : option SensorReading.t :=
  match Reading.time r, Reading.equipment_id r, Reading.metric_name r with
  | VDatetime d, VStr e, VStr m =>
      Some (SensorReading.mk (instant d) e m (Reading.metric_value r)
              (Reading.metric_unit r) (Reading.reading_status r) (Reading.metadata r))
  | _, _, _ => None
  end.

(** [readings[i:i + batch_size] for i in range(0, len(readings), batch_size)],
    for a positive [batch_size]. *)
Fixpoint slices {A} (fuel : nat) (batch_size : nat) (readings : list A) : list (list A) :=
  match fuel, readings with
  | 0, _ | _, [] => []
  | S fuel', _ =>
      take batch_size readings :: slices fuel' batch_size (drop batch_size readings)
  end.

(** [range] refuses a zero step and is empty for a negative one. *)
Definition batches {A} (batch_size : Z) (readings : list A) : outcome (list (list A)) :=
  if (batch_size =? 0)%Z then Raise ValueError
  else if (batch_size <? 0)%Z then Return []
  else Return (slices (length readings) (Z.to_nat batch_size) readings).

Definition _bulk_insert (cfg : Settings) (readings : list Reading.t) : P unit :=
  match readings with
  | [] => ret tt
  | _ =>
      try_except
        (let* chunks := lift (batches (MAX_BATCH_SIZE cfg) readings) in
         for_each chunks (fun batch =>
           let* _ := on_db (execute_insert (map bind_params batch)) in
           on_db commit))
        Exception
        (fun e => let* _ := on_db rollback in raise e)
  end.

(** [a / b] on two counts, [b] not zero (counts stay below 2^53). *)
Definition true_div (a b : nat) : float :=
  (of_uint63 (Uint63.of_Z (Z.of_nat a)) / of_uint63 (Uint63.of_Z (Z.of_nat b)))%float.

(** [_check_quality_thresholds] only logs; the result says which of the two
    errors it logs. *)
Definition _check_quality_thresholds (cfg : Settings) : P (bool * bool) :=
  let* self := get in
  let total := max (total_processed (stats self)) 1 in
  let duplicate_rate := true_div (duplicates (stats self)) total in
  let invalid_rate := true_div (invalid (stats self)) total in
  ret ((MAX_DUPLICATE_RATE cfg <? duplicate_rate)%float,
       (MAX_INVALID_RATE cfg <? invalid_rate)%float).

Definition _record_quality_metrics (cfg : Settings) (processing_time_ms : Z) : P unit :=
  try_except
    (let* self := get in
     let st := stats self in
     let metric := {|
       DataQualityMetric.total_records_processed := total_processed st;
       DataQualityMetric.invalid_records := invalid st;
       DataQualityMetric.duplicate_records := duplicates st;
       DataQualityMetric.late_arriving_records := late_arrivals st;
       DataQualityMetric.processing_time_ms := processing_time_ms;
       DataQualityMetric.pipeline_stage := "ingestion";
       DataQualityMetric.duplicate_rate :=
         true_div (duplicates st) (max (total_processed st) 1);
       DataQualityMetric.invalid_rate :=
         true_div (invalid st) (max (total_processed st) 1)
     |} in
     let* _ := on_db (add metric) in
     let* _ := on_db commit in
     let* _ := _check_quality_thresholds cfg in
     ret tt)
    Exception
    (fun _ => ret tt).

Definition ingest_batch `{Builtins} (cfg : Settings) (now : Z) (processing_time : Z)
    (readings : list (gmap string pyval)) : P IngestionResult :=
  try_except
    (let* validated_readings := _validate_readings readings in
     let* unique_readings := _deduplicate validated_readings in
     let* (on_time, late) := lift (_check_timeliness cfg now unique_readings) in
     let* _ := add_late_arrivals (length late) in
     let* _ := match on_time with
               | [] => ret tt
               | _ => _bulk_insert cfg on_time
               end in
     let* _ := _record_quality_metrics cfg processing_time in
     let* self := get in
     ret (Success (length readings) (length on_time) (invalid (stats self))
            (duplicates (stats self)) (late_arrivals (stats self)) processing_time))
    Exception
    (fun e => ret (Failure e (length readings))).

End ingestion.

(** ** app.services.analytics: [AnalyticsEngine] *)
Module analytics.
Import config database.

(** The numerical libraries the engine calls (pandas, numpy, scikit-learn),
    taken as they are: each is a function of its input. *)
Class Numerics := {
  (* the four feature columns of [detect_anomalies]: value, rolling mean,
     rolling std and rate of change, after the two [fillna] *)
  features : list float → list (float * float * float * float);
  (* IsolationForest(contamination=0.05, random_state=42, n_estimators=100):
     [fit_predict] and [score_samples] of the feature rows, zipped *)
  isolation_forest : list (float * float * float * float) → outcome (list (Z * float));
  (* the slope of [np.polyfit(np.arange(len(values)), values, 1)] *)
  polyfit_slope : list float → outcome float;
  (* [Series.mean()], [Series.min()], [Series.max()] *)
  mean : list float → float;
  series_min : list float → float;
  series_max : list float → float
}.

(** The text of an error result: a literal of the code, or [str(e)]. *)
Inductive error_text :=
| Text (s : string)
| str (e : exn).

Module Anomaly.
Record t := mk {
  time : Z;
  metric_value : float;
  anomaly_score : float;
  severity : AlertSeverity
}.
End Anomaly.

Module ThresholdViolation.
Record t := mk {
  time : Z;
  metric_name : string;
  metric_value : float;
  metric_unit : pyval;
  threshold : float;
  severity : AlertSeverity
}.
End ThresholdViolation.

Module TrendSummary.
Record t := mk {
  equipment_id : string;
  metric_name : string;
  period_days : Z;
  trend_direction : string;
  trend_slope : float;
  average_value : float;
  recent_average : float;
  percent_change : float;
  volatility : float;
  min_value : float;
  max_value : float;
  data_points : nat
}.
End TrendSummary.

Module MaintenanceRisk.
Record t := mk {
  equipment_id : string;
  risk_score : Z;
  risk_level : string;
  recommendation : string;
  days_since_calibration : option Z;
  recent_alerts : Z;
  usage_intensity : string
}.
End MaintenanceRisk.

(** A dict with the single key ["error"], or the full result. *)
Inductive or_error (A : Type) :=
| Error (error : error_text)
| Result (a : A).
Arguments Error {A} error.
Arguments Result {A} a.

Definition _calculate_severity (anomaly_score : float) : AlertSeverity :=
  if (anomaly_score <? -0.5)%float then CRITICAL
  else if (anomaly_score <? -0.3)%float then WARNING
  else INFO.

(** The loop over [enumerate(zip(predictions, anomaly_scores))];
    [df.iloc[idx]] outside the frame is an [IndexError]. *)
Fixpoint collect_anomalies (df : list SensorReading.t) (idx : nat)
    (model : list (Z * float)) : outcome (list Anomaly.t) :=
  match model with
  | [] => Return []
  | (pred, score) :: rest =>
      if (pred =? -1)%Z then
        match df !! idx with
        | None => Raise IndexError
        | Some row =>
            match collect_anomalies df (S idx) rest with
            | Raise e => Raise e
            | Return anomalies =>
                Return (Anomaly.mk (SensorReading.time row)
                          (SensorReading.metric_value row) score
                          (_calculate_severity score) :: anomalies)
            end
        end
      else collect_anomalies df (S idx) rest
  end.

Definition detect_anomalies `{Numerics} (now : Z) (equipment_id metric_name : string)
    (lookback_hours : Z) : M Session (list Anomaly.t) :=
  try_except
    (let cutoff_time := (now - lookback_hours * 3600000000)%Z in
     let* df := select_readings equipment_id metric_name cutoff_time in
     if length df <? 50 then ret []
     else
       let feats := features (map SensorReading.metric_value df) in
       let* model := lift (isolation_forest feats) in
       lift (collect_anomalies df 0 model))
    Exception
    (fun _ => ret []).

(** [threshold_map.get(equipment_type, {})]; the inner dicts keep the order
    in which their keys are written. *)
Definition _get_thresholds (cfg : Settings) (equipment_type : string)
    : list (string * float) :=
  let threshold_map : gmap string (list (string * float)) :=
    list_to_map [
      ("gas_detector", [("gas_concentration", GAS_DETECTION_THRESHOLD cfg)]);
      ("temperature_sensor", [("temperature", TEMPERATURE_THRESHOLD cfg)]);
      ("pressure_sensor", [("pressure", PRESSURE_THRESHOLD cfg)]);
      ("air_quality_monitor",
        [("pm25", 35.0%float); ("pm10", 150.0%float); ("co2", 1000.0%float)])
    ] in
  default [] (threshold_map !! equipment_type).

(** [value / threshold] on floats raises when [threshold] is zero. *)
Definition _threshold_severity (value threshold : float) : outcome AlertSeverity :=
  if (threshold =? 0)%float then Raise ZeroDivisionError
  else
    let ratio := (value / threshold)%float in
    Return (if (2.0 <? ratio)%float then EMERGENCY
            else if (1.5 <? ratio)%float then CRITICAL
            else if (1.2 <? ratio)%float then WARNING
            else INFO).

(** [for row in result: violations.append(...)] *)
Fixpoint violations_of (metric_name : string) (threshold : float)
    (result : list SensorReading.t) : outcome (list ThresholdViolation.t) :=
  match result with
  | [] => Return []
  | row :: rest =>
      match _threshold_severity (SensorReading.metric_value row) threshold with
      | Raise e => Raise e
      | Return severity =>
          match violations_of metric_name threshold rest with
          | Raise e => Raise e
          | Return violations =>
              Return (ThresholdViolation.mk (SensorReading.time row) metric_name
                        (SensorReading.metric_value row) (SensorReading.metric_unit row)
                        threshold severity :: violations)
          end
      end
  end.

(** [for metric_name, threshold in thresholds.items(): ...] *)
Fixpoint check_each (equipment_id : string) (cutoff_time : Z)
    (thresholds : list (string * float)) : M Session (list ThresholdViolation.t) :=
  match thresholds with
  | [] => ret []
  | (metric_name, threshold) :: rest =>
      let* result := select_violations equipment_id metric_name cutoff_time threshold in
      let* found := lift (violations_of metric_name threshold result) in
      let* violations := check_each equipment_id cutoff_time rest in
      ret (found ++ violations)
  end.

Definition check_thresholds (cfg : Settings) (now : Z) (equipment_id : string)
    (lookback_minutes : Z) : M Session (list ThresholdViolation.t) :=
  try_except
    (let cutoff_time := (now - lookback_minutes * 60000000)%Z in
     let* equipment := query_equipment (VStr equipment_id) in
     match equipment with
     | None => ret []
     | Some equipment =>
         let thresholds :=
           _get_thresholds cfg (value (Equipment.equipment_type equipment)) in
         check_each equipment_id cutoff_time thresholds
     end)
    Exception
    (fun _ => ret []).

(** [df.tail(n)] *)
Definition tail {A} (n : nat) (df : list A) : list A :=
  drop (length df - n) df.

Definition analyze_trends `{Numerics} (now : Z) (equipment_id metric_name : string)
    (period_days : Z) : M Session (or_error TrendSummary.t) :=
  try_except
    (let cutoff_time := (now - period_days * 86400000000)%Z in
     let* df := select_hourly equipment_id metric_name cutoff_time in
     if length df <? 24 then
       ret (Error (Text "Insufficient data for trend analysis"))
     else
       let values := map HourlyBucket.avg_value df in
       let* slope := lift (polyfit_slope values) in
       let volatility :=
         if negb (mean values =? 0)%float
         then (mean (map HourlyBucket.stddev_value df) / mean values)%float
         else 0%float in
       let recent_avg := mean (map HourlyBucket.avg_value (tail 24 df)) in
       let historical_avg := mean values in
       let percent_change :=
         if negb (historical_avg =? 0)%float
         then ((recent_avg - historical_avg) / historical_avg * 100)%float
         else 0%float in
       ret (Result {|
         TrendSummary.equipment_id := equipment_id;
         TrendSummary.metric_name := metric_name;
         TrendSummary.period_days := period_days;
         TrendSummary.trend_direction :=
           if (0 <? slope)%float then "increasing" else "decreasing";
         TrendSummary.trend_slope := slope;
         TrendSummary.average_value := mean values;
         TrendSummary.recent_average := recent_avg;
         TrendSummary.percent_change := percent_change;
         TrendSummary.volatility := volatility;
         TrendSummary.min_value := series_min (map HourlyBucket.min_value df);
         TrendSummary.max_value := series_max (map HourlyBucket.max_value df);
         TrendSummary.data_points := length df
       |}))
    Exception
    (fun e => ret (Error (str e))).

(** The scoring of [predict_maintenance]; [d and d > 180] is false for
    [None] and for [0]. *)
Definition risk_score_of (days_since_calibration : option Z)
    (recent_alerts reading_count : Z) : Z :=
  let risk_score := 0%Z in
  let risk_score :=
    match days_since_calibration with
    | Some d => if negb (d =? 0)%Z && (180 <? d)%Z then (risk_score + 40)%Z else risk_score
    | None => risk_score
    end in
  let risk_score := if (10 <? recent_alerts)%Z then (risk_score + 30)%Z else risk_score in
  let risk_score := if (10000 <? reading_count)%Z then (risk_score + 20)%Z else risk_score in
  risk_score.

Definition risk_level_of (risk_score : Z) : string * string :=
  if (70 <? risk_score)%Z then ("high", "Schedule maintenance within 1 week")
  else if (40 <? risk_score)%Z then ("medium", "Schedule maintenance within 1 month")
  else ("low", "Normal operations, routine checks").

Definition predict_maintenance (now : Z) (equipment_id : string)
    : M Session (or_error MaintenanceRisk.t) :=
  try_except
    (let* equipment := query_equipment (VStr equipment_id) in
     match equipment with
     | None => ret (Error (Text "Equipment not found"))
     | Some equipment =>
         let days_since_calibration :=
           match Equipment.last_calibration_date equipment with
           | Some last => Some ((now - last) / 86400000000)%Z
           | None => None
           end in
         let* recent_alerts := count_alerts equipment_id (now - 30 * 86400000000)%Z in
         let* reading_count := count_readings equipment_id (now - 30 * 86400000000)%Z in
         let risk_score := risk_score_of days_since_calibration recent_alerts reading_count in
         let '(risk_level, recommendation) := risk_level_of risk_score in
         ret (Result {|
           MaintenanceRisk.equipment_id := equipment_id;
           MaintenanceRisk.risk_score := risk_score;
           MaintenanceRisk.risk_level := risk_level;
           MaintenanceRisk.recommendation := recommendation;
           MaintenanceRisk.days_since_calibration := days_since_calibration;
           MaintenanceRisk.recent_alerts := recent_alerts;
           MaintenanceRisk.usage_intensity :=
             if (10000 <? reading_count)%Z then "high" else "normal"
         |})
     end)
    Exception
    (fun e => ret (Error (str e))).

End analytics.

Import config database ingestion analytics.

(** ** Test doubles and fixtures

    The parsers and the numerical libraries are arguments of the model; the
    examples below run it with these stand-ins. *)

(** A runtime whose parsers accept one string each, enough for the inputs
    of the examples: [float("not_a_number")] and
    [datetime.fromisoformat("not-a-timestamp")] fail, as they do in Python. *)
Definition example_builtins : Builtins := {|
  float_of_str := fun s => if bool_decide (s = "5.0") then Some 5.0%float else None;
  fromisoformat := fun s =>
    if bool_decide (s = "1970-01-01T00:00:00") then Some (mk_datetime 0 false)
    else None
|}.

(** A detector that flags no row and scores every row alike, which is what
    an isolation forest answers on rows that are all equal. *)
Definition quiet_numerics : Numerics := {|
  features := fun values => map (fun v => (v, v, 0%float, 0%float)) values;
  isolation_forest := fun rows => Return (map (fun _ => (1%Z, (-0.5)%float)) rows);
  polyfit_slope := fun _ => Return 0%float;
  mean := fun values => hd 0%float values;
  series_min := fun values => hd 0%float values;
  series_max := fun values => hd 0%float values
|}.

Definition empty_session : Session := mkSession [] [] [] [] [] [] [] [].

(** The database of the test suite: one gas detector, [TEST-001]. *)
Definition test_session : Session :=
  mkSession [Equipment.mk "TEST-001" GAS_DETECTOR None] [] [] [] [] [] [] [].

(** A raw reading with the four required fields. *)
Definition reading_of (equipment_id metric_name : string) (metric_value time : pyval)
    : gmap string pyval :=
  <["equipment_id" := VStr equipment_id]>
    (<["metric_name" := VStr metric_name]>
       (<["metric_value" := metric_value]> (<["time" := time]> ∅))).

(** [datetime.utcnow()] of the examples, and a naive datetime. *)
Definition example_now : Z := 1700000000000000.

Definition naive (t : Z) : pyval := VDatetime (mk_datetime t false).

Definition hours (n : Z) : Z := n * 3600000000.

Definition days (n : Z) : Z := n * 86400000000.

(** * The callers: the HTTP endpoints and the scheduled tasks

    The endpoints are the functions that FastAPI calls after it has parsed
    and checked the request (the pydantic models, the bounds of the query
    parameters); the model is the function body. An endpoint returns a
    response or raises an [HTTPException]. *)

(** ** fastapi *)
Module fastapi.

(** The [detail] of an [HTTPException]. The text of [str(e)] for an
    exception of the services is not modelled; [str_exn e] stands for it. *)
Inductive detail :=
| literal (s : string)
| ingestion_failed (error : exn)            (* f"Ingestion failed: {error}" *)
| str_exn (e : exn)                         (* str(e) *)
| str_http (status_code : Z) (d : detail).  (* str(e) for an HTTPException *)

(** What the body of an endpoint raises. *)
Inductive raised :=
| Python (e : exn)
| Http (status_code : Z) (d : detail).

(** [str(e)] *)
Definition str (e : raised) : detail :=
  match e with
  | Python e => str_exn e
  | Http status_code d => str_http status_code d
  end.

(** What the caller of an endpoint gets. *)
Inductive response (A : Type) :=
| Respond (a : A)
| HTTPException (status_code : Z) (d : detail).
Arguments Respond {A} a.
Arguments HTTPException {A} status_code d.

(** [except Exception as e: raise HTTPException(status_code=500, detail=str(e))] *)
Definition except_Exception {A} (body : A + raised) : response A :=
  match body with
  | inl a => Respond a
  | inr e => HTTPException 500 (str e)
  end.

(** [except HTTPException: raise] before [except Exception as e: ...] *)
Definition except_HTTPException {A} (body : A + raised) : response A :=
  match body with
  | inl a => Respond a
  | inr (Http status_code d) => HTTPException status_code d
  | inr (Python e) => HTTPException 500 (str_exn e)
  end.

End fastapi.

(** ** app.services.ingestion, the file [services/ingestion.py]

    The directory [services] holds two files that define
    [DataIngestionPipeline]: [ ingestion.py] (modelled in the module
    [ingestion] above) and this one, which answers without doing anything. *)
Module ingestion_stub.

Record DataIngestionPipeline := mkPipeline {
  db : Session
}.

Definition __init__ (db : Session) : DataIngestionPipeline := mkPipeline db.

Definition ingest_batch (readings_data : list (gmap string pyval))
    : M DataIngestionPipeline IngestionResult :=
  ret (Success (length readings_data) (length readings_data) 0 0 0 0).

End ingestion_stub.

(** ** app.api.ingestion *)
Module api_ingestion.
Import fastapi.

(** What the name [DataIngestionPipeline] is bound to by
    [from app.services.ingestion import DataIngestionPipeline]: a class with
    a constructor over the session and the method [ingest_batch]. The
    session is the object that the endpoint passed in, as the pipeline
    leaves it. *)
Class PipelineClass := {
  pipeline : Type;
  DataIngestionPipeline : Session → pipeline;
  pipeline_ingest_batch :
    Settings → Z → Z → list (gmap string pyval) → pipeline → outcome IngestionResult * pipeline;
  pipeline_db : pipeline → Session
}.

(** The class of [ ingestion.py]. *)
Definition services_ingestion `{Builtins} : PipelineClass := {|
  pipeline := ingestion.DataIngestionPipeline;
  DataIngestionPipeline := ingestion.__init__;
  pipeline_ingest_batch := ingestion.ingest_batch;
  pipeline_db := ingestion.db
|}.

(** The class of [ingestion.py]. *)
Definition services_ingestion_stub : PipelineClass := {|
  pipeline := ingestion_stub.DataIngestionPipeline;
  DataIngestionPipeline := ingestion_stub.__init__;
  pipeline_ingest_batch := fun _ _ _ => ingestion_stub.ingest_batch;
  pipeline_db := ingestion_stub.db
|}.

(** [SensorReadingInput], as pydantic hands it over. *)
Record SensorReadingInput := {
  equipment_id : string;
  metric_name : string;
  metric_value : float;
  metric_unit : option string;
  time : datetime;
  reading_status : string;
  metadata : list (string * string)
}.

Record BatchIngestionRequest := {
  readings : list SensorReadingInput;
  source : string
}.

Record IngestionResponse := {
  success : bool;
  total_received : nat;
  total_inserted : nat;
  invalid_count : nat;
  duplicate_count : nat;
  late_arrival_count : nat;
  processing_time_ms : Z;
  message : string
}.

(** The dict that [ingest_single] returns. *)
Record SingleResponse := {
  single_success : bool;
  single_message : string;
  single_processing_time_ms : Z
}.

(** [reading.model_dump()] *)
Definition model_dump (reading : SensorReadingInput) : gmap string pyval :=
  list_to_map [
    ("equipment_id", VStr (equipment_id reading));
    ("metric_name", VStr (metric_name reading));
    ("metric_value", VFloat (metric_value reading));
    ("metric_unit", from_option VStr VNone (metric_unit reading));
    ("time", VDatetime (time reading));
    ("reading_status", VStr (reading_status reading));
    ("metadata", VDict (metadata reading))
  ].

(** [BackgroundTasks]: the calls of [check_threshold_violations] that wait
    for the response to be sent, each with its [readings_data]. *)
Definition BackgroundTasks := list (list (gmap string pyval)).

(** [POST /batch] *)
Definition ingest_batch `{PipelineClass} (cfg : Settings) (now processing_time : Z)
    (request : BatchIngestionRequest) (background_tasks : BackgroundTasks) (db : Session)
    : response IngestionResponse * BackgroundTasks * Session :=
  let readings_data := map model_dump (readings request) in
  let pipeline := DataIngestionPipeline db in
  let '(result, pipeline) :=
    pipeline_ingest_batch cfg now processing_time readings_data pipeline in
  let db := pipeline_db pipeline in
  let '(body, background_tasks) :=
    match result with
    | Raise e => (inr (Python e), background_tasks)
    | Return (Success total_received total_inserted invalid_count duplicate_count
                late_arrival_count processing_time_ms) =>
        (inl {|
           success := true;
           total_received := total_received;
           total_inserted := total_inserted;
           invalid_count := invalid_count;
           duplicate_count := duplicate_count;
           late_arrival_count := late_arrival_count;
           processing_time_ms := processing_time_ms;
           message := "Successfully processed " +:+ pretty total_inserted +:+ " readings"
         |},
         background_tasks ++ [readings_data])
    | Return (Failure error _) =>
        (inr (Http 500 (ingestion_failed error)), background_tasks)
    end in
  (except_Exception body, background_tasks, db).

(** [POST /single] *)
Definition ingest_single `{PipelineClass} (cfg : Settings) (now processing_time : Z)
    (reading : SensorReadingInput) (db : Session) : response SingleResponse * Session :=
  let pipeline := DataIngestionPipeline db in
  let '(result, pipeline) :=
    pipeline_ingest_batch cfg now processing_time [model_dump reading] pipeline in
  let db := pipeline_db pipeline in
  let body :=
    match result with
    | Raise e => inr (Python e)
    | Return (Success _ _ _ _ _ processing_time_ms) =>
        inl {|
          single_success := true;
          single_message := "Reading ingested successfully";
          single_processing_time_ms := processing_time_ms
        |}
    | Return (Failure error _) => inr (Http 500 (str_exn error))
    end in
  (except_Exception body, db).

(** [score = 100 - (invalid_rate * 50) - (duplicate_rate * 30)], clamped with
    [max(0.0, min(100.0, score))]: [min] and [max] return their first
    argument unless the second is smaller, respectively larger. The
    arguments are counts (below 2^53, where [/] is the float division of the
    converted ints). *)
Definition calculate_quality_score (invalid duplicates total : nat) : float :=
  if Nat.eqb total 0 then 0.0%float
  else
    let invalid_rate := true_div invalid total in
    let duplicate_rate := true_div duplicates total in
    let score := (100 - invalid_rate * 50 - duplicate_rate * 30)%float in
    let capped := if (score <? 100.0)%float then score else 100.0%float in
    if (0.0 <? capped)%float then capped else 0.0%float.

End api_ingestion.

(** ** app.api.analytics *)
Module api_analytics.
Import fastapi.

Record AnomaliesResponse := {
  anomalies_equipment_id : string;
  anomalies_metric_name : string;
  lookback_hours : Z;
  anomalies_detected : nat;
  anomalies : list Anomaly.t
}.

Record ViolationsResponse := {
  violations_equipment_id : string;
  lookback_minutes : Z;
  violations_detected : nat;
  violations : list ThresholdViolation.t
}.

(** [trends["error"]] and [prediction["error"]] as a detail. *)
Definition detail_of (error : error_text) : detail :=
  match error with
  | Text s => literal s
  | analytics.str e => str_exn e
  end.

(** [GET /anomalies/{equipment_id}] *)
Definition detect_anomalies `{Numerics} (now : Z) (equipment_id metric_name : string)
    (lookback_hours : Z) (db : Session) : response AnomaliesResponse * Session :=
  let '(result, db) :=
    analytics.detect_anomalies now equipment_id metric_name lookback_hours db in
  let body :=
    match result with
    | Raise e => inr (Python e)
    | Return anomalies =>
        inl {|
          anomalies_equipment_id := equipment_id;
          anomalies_metric_name := metric_name;
          lookback_hours := lookback_hours;
          anomalies_detected := length anomalies;
          anomalies := anomalies
        |}
    end in
  (except_Exception body, db).

(** [GET /thresholds/{equipment_id}] *)
Definition check_thresholds (cfg : Settings) (now : Z) (equipment_id : string)
    (lookback_minutes : Z) (db : Session) : response ViolationsResponse * Session :=
  let '(result, db) := analytics.check_thresholds cfg now equipment_id lookback_minutes db in
  let body :=
    match result with
    | Raise e => inr (Python e)
    | Return violations =>
        inl {|
          violations_equipment_id := equipment_id;
          lookback_minutes := lookback_minutes;
          violations_detected := length violations;
          violations := violations
        |}
    end in
  (except_Exception body, db).

(** [GET /trends/{equipment_id}] *)
Definition analyze_trends `{Numerics} (now : Z) (equipment_id metric_name : string)
    (period_days : Z) (db : Session) : response TrendSummary.t * Session :=
  let '(result, db) := analytics.analyze_trends now equipment_id metric_name period_days db in
  let body :=
    match result with
    | Raise e => inr (Python e)
    | Return (Error error) => inr (Http 400 (detail_of error))
    | Return (Result trends) => inl trends
    end in
  (except_HTTPException body, db).

(** [GET /maintenance/{equipment_id}] *)
Definition predict_maintenance (now : Z) (equipment_id : string) (db : Session)
    : response MaintenanceRisk.t * Session :=
  let '(result, db) := analytics.predict_maintenance now equipment_id db in
  let body :=
    match result with
    | Raise e => inr (Python e)
    | Return (Error error) => inr (Http 400 (detail_of error))
    | Return (Result prediction) => inl prediction
    end in
  (except_HTTPException body, db).

End api_analytics.

(** ** app.api.tasks.celery_app *)
Module celery_app.

(** [metric_map.get(equipment_type, [])] *)
Definition get_metrics_for_equipment_type (equipment_type : string) : list string :=
  let metric_map : gmap string (list string) :=
    list_to_map [
      ("gas_detector", ["gas_concentration"]);
      ("temperature_sensor", ["temperature"]);
      ("pressure_sensor", ["pressure"]);
      ("air_quality_monitor", ["pm25"; "pm10"; "co2"]);
      ("location_tracker", ["battery_level"])
    ] in
  default [] (metric_map !! equipment_type).

End celery_app.

(** * The vocabulary of the statements *)

(** A relation between the state before and after that every step of a
    computation keeps, unless the computation ends in an exception of the
    class [bad]. *)
Definition unless {S A} (bad : exn → Prop) (R : S → S → Prop) (m : M S A) : Prop :=
  ∀ s, (∃ e, (m s).1 = Raise e ∧ bad e) ∨ R s (m s).2.

(** The relation is kept whatever the outcome. *)
Definition preserves {S A} (R : S → S → Prop) (m : M S A) : Prop :=
  unless (fun _ => False) R m.

Definition one_more_invalid (st : Stats) : Stats :=
  mkStats (total_processed st) (invalid st + 1) (duplicates st) (late_arrivals st).

(** What the loop body does with a reading before it asks the registry. *)
Inductive verdict :=
| Skip                     (* counted invalid, nothing appended *)
| Escape (e : exn)         (* an exception the loop does not catch *)
| Candidate (r : Reading.t).

Definition parse_time `{Builtins} (time : pyval) : option pyval :=
  match time with
  | VStr s => VDatetime <$> fromisoformat (replace_Z s)
  | _ => Some time
  end.

Definition precheck `{Builtins} (reading : gmap string pyval) : verdict :=
  match reading !! "equipment_id", reading !! "metric_name",
        reading !! "metric_value", reading !! "time" with
  | Some equipment_id, Some metric_name, Some raw, Some time =>
      match py_float raw with
      | Raise e => if validation_errors e then Skip else Escape e
      | Return metric_value =>
          match parse_time time with
          | None => Skip
          | Some timestamp =>
              match _is_value_reasonable metric_name metric_value with
              | Raise e => if validation_errors e then Skip else Escape e
              | Return false => Skip
              | Return true =>
                  Candidate (Reading.mk timestamp equipment_id metric_name metric_value
                    (default VNone (reading !! "metric_unit"))
                    (default (VStr "normal") (reading !! "reading_status"))
                    (default (VDict []) (reading !! "metadata")))
              end
          end
      end
  | _, _, _, _ => Skip
  end.

Definition registered (equipment_id : pyval) (d : Session) : bool :=
  bool_decide (is_Some (first_equipment equipment_id d)).

Definition answer (r : Reading.t) (d : Session) (st : Stats)
    : outcome (option Reading.t) * DataIngestionPipeline :=
  if registered (Reading.equipment_id r) d then (Return (Some r), mkPipeline d st)
  else (Return None, mkPipeline d (one_more_invalid st)).

Definition same_stats (p p' : DataIngestionPipeline) : Prop := stats p' = stats p.

Definition plus_stats (a b : Stats) : Stats :=
  mkStats (total_processed a + total_processed b) (invalid a + invalid b)
    (duplicates a + duplicates b) (late_arrivals a + late_arrivals b).

Definition rebase (st : Stats) (p : DataIngestionPipeline) : DataIngestionPipeline :=
  mkPipeline (db p) (plus_stats st (stats p)).

Definition blind {A} (m : P A) : Prop :=
  ∀ st p, m (rebase st p) = ((m p).1, rebase st (m p).2).

(** With the counters as they stand added to what a new pipeline over the
    same session would report. *)
Definition carried (st : Stats) (result : IngestionResult) : IngestionResult :=
  match result with
  | Success total_received total_inserted invalid_count duplicate_count
      late_arrival_count ms =>
      Success total_received total_inserted (invalid st + invalid_count)
        (duplicates st + duplicate_count) (late_arrivals st + late_arrival_count) ms
  | Failure e total_received => Failure e total_received
  end.

(** The exception of a failed round trip. *)
Definition store_failure (e : exn) : Prop := e = SQLAlchemyError.

(** Every round trip between the two sessions was answered: the part of the
    fault schedule used up holds no fault. *)
Definition answered (d d' : Session) : Prop :=
  ∃ used, faults d = used ++ faults d' ∧ Forall (eq false) used.

(** The same, for the pipeline. *)
Definition all_answered (p p' : DataIngestionPipeline) : Prop := answered (db p) (db p').

Definition settled (d d' : Session) : Prop :=
  faults d = [] → new_metrics d = [] →
  faults d' = [] ∧ new_metrics d' = []
  ∧ data_quality_metrics d' = data_quality_metrics d.

Definition all_settled (p p' : DataIngestionPipeline) : Prop := settled (db p) (db p').

(** The severity the specification gives to an exceedance ratio. *)
Definition severity_by_ratio (ratio : float) : AlertSeverity :=
  if (2.0 <? ratio)%float then EMERGENCY
  else if (1.5 <? ratio)%float then CRITICAL
  else if (1.2 <? ratio)%float then WARNING
  else INFO.

(** A violation as the specification wants it: a stored reading above the
    threshold, rated by its ratio to the threshold. *)
Definition rated (rows : list SensorReading.t) (v : ThresholdViolation.t) : Prop :=
  (ThresholdViolation.threshold v <? ThresholdViolation.metric_value v)%float = true
  ∧ (∃ row, row ∈ rows
       ∧ SensorReading.time row = ThresholdViolation.time v
       ∧ SensorReading.metric_name row = ThresholdViolation.metric_name v
       ∧ SensorReading.metric_value row = ThresholdViolation.metric_value v)
  ∧ ThresholdViolation.severity v =
      severity_by_ratio
        (ThresholdViolation.metric_value v / ThresholdViolation.threshold v)%float.



(** The reasonable range of a metric as the specification lists them, both
    ends included. *)
Definition reasonable_range (metric_name : pyval) : float * float :=
  if bool_decide (metric_name = VStr "gas_concentration") then ((-0.1)%float, 10000%float)
  else if bool_decide (metric_name = VStr "temperature") then ((-50)%float, 200%float)
  else if bool_decide (metric_name = VStr "pressure") then (0%float, 1000%float)
  else if bool_decide (metric_name = VStr "humidity") then (0%float, 100%float)
  else if bool_decide (metric_name = VStr "battery_level") then (0%float, 100%float)
  else ((-1e6)%float, 1e6%float).

Definition within (range : float * float) (value : float) : bool :=
  (range.1 <=? value)%float && (value <=? range.2)%float.

(** Why validation turns a record down. *)
Inductive rejected `{Builtins} (d : Session) (reading : gmap string pyval) : Prop :=
| missing_field field :
    field ∈ required_fields → reading !! field = None → rejected d reading
| not_a_finite_number v :
    reading !! "metric_value" = Some v →
    (∀ f, py_float v = Return f → is_finite f = false) →
    rejected d reading
| unparseable_time s :
    reading !! "time" = Some (VStr s) → fromisoformat (replace_Z s) = None →
    rejected d reading
| unhashable_metric_name items :
    reading !! "metric_name" = Some (VDict items) → rejected d reading
| unknown_equipment equipment_id :
    reading !! "equipment_id" = Some equipment_id →
    first_equipment equipment_id d = None →
    rejected d reading
| out_of_range metric_name v f :
    reading !! "metric_name" = Some metric_name →
    reading !! "metric_value" = Some v → py_float v = Return f →
    within (reasonable_range metric_name) f = false →
    rejected d reading.

(** A gas detector with one reading of 25 ppm, one minute old. *)
Definition gas_session : Session :=
  mkSession [Equipment.mk "GAS-001" GAS_DETECTOR (Some (example_now - days 200)%Z)]
    [SensorReading.mk (example_now - 60000000)%Z "GAS-001" "gas_concentration" 25.0%float
       (VStr "ppm") (VStr "normal") (VDict [])]
    [] [] [] [] [] [].

(** The detector of the specification's example: calibrated 200 days ago,
    15 alerts and 500 readings in the last 30 days. *)
Definition worn_session : Session :=
  mkSession [Equipment.mk "GAS-001" GAS_DETECTOR (Some (example_now - days 200)%Z)]
    (map (λ i, SensorReading.mk (example_now - Z.of_nat i * 60000000)%Z "GAS-001"
                 "gas_concentration" 5.0%float (VStr "ppm") (VStr "normal") (VDict []))
       (seq 1 500))
    []
    (map (λ i, Alert.mk "GAS-001" (example_now - hours (Z.of_nat i))%Z) (seq 1 15))
    [] [] [] [].

(** Fifty equal readings of one sensor, one per minute. *)
Definition steady_session : Session :=
  mkSession [Equipment.mk "GAS-001" GAS_DETECTOR None]
    (map (λ i, SensorReading.mk (example_now - Z.of_nat i * 60000000)%Z "GAS-001"
                 "gas_concentration" 5.0%float (VStr "ppm") (VStr "normal") (VDict []))
       (seq 1 50))
    [] [] [] [] [] [].


(** Readings of the ingestion examples, all for [TEST-001]. *)
Definition on_time_reading : gmap string pyval :=
  reading_of "TEST-001" "gas_concentration" (VFloat 5.0) (naive example_now).

Definition late_reading : gmap string pyval :=
  reading_of "TEST-001" "temperature" (VFloat 25.0) (naive (example_now - hours 2)).

Definition unknown_equipment_reading : gmap string pyval :=
  reading_of "NONEXISTENT" "temperature" (VFloat 25.0) (naive example_now).

Definition unparseable_time_reading : gmap string pyval :=
  reading_of "TEST-001" "temperature" (VFloat 25.0) (VStr "not-a-timestamp").

Definition unhashable_name_reading : gmap string pyval :=
  <["metric_name" := VDict []]> on_time_reading.

Definition no_time_reading : gmap string pyval :=
  reading_of "TEST-001" "temperature" (VFloat 25.0) VNone.


Definition hot_reading : gmap string pyval :=
  reading_of "TEST-001" "temperature" (VFloat 999999.0) (naive example_now).

(** Between two sessions: the registry, the hourly aggregate and the alerts
    are the same, committed rows are only appended, every reading in sight
    afterwards was in sight before or satisfies [Q], and the keys of the
    readings in sight stay distinct. *)
Definition writes (Q : SensorReading.t → Prop) (d d' : Session) : Prop :=
  equipment d' = equipment d
  ∧ sensor_readings_hourly d' = sensor_readings_hourly d
  ∧ alerts d' = alerts d
  ∧ sensor_readings d `prefix_of` sensor_readings d'
  ∧ data_quality_metrics d `prefix_of` data_quality_metrics d'
  ∧ (∀ row, row ∈ visible_readings d' → row ∈ visible_readings d ∨ Q row)
  ∧ (NoDup (key_of <$> visible_readings d) → NoDup (key_of <$> visible_readings d')).

(** The same, for the pipeline. *)
Definition all_writes (Q : SensorReading.t → Prop) (p p' : DataIngestionPipeline) : Prop :=
  writes Q (db p) (db p').

(** The rows that the insert statement binds for a list of readings. *)
Definition bound (readings : list Reading.t) (row : SensorReading.t) : Prop :=
  ∃ r, r ∈ readings ∧ bind_params r = Some row.

Definition accepted `{Builtins} (d : Session) (reading : gmap string pyval)
    : option Reading.t :=
  match precheck reading with
  | Candidate r => if registered (Reading.equipment_id r) d then Some r else None
  | _ => None
  end.

(** The instant of a time that is a datetime without tzinfo. *)
Definition naive_time (r : Reading.t) : option Z :=
  match Reading.time r with
  | VDatetime d => if tz_aware d then None else Some (instant d)
  | _ => None
  end.

Definition on_time_at (cfg : Settings) (now : Z) (r : Reading.t) : bool :=
  match naive_time r with
  | Some t => (now - MAX_LATE_ARRIVAL_MINUTES cfg * 60000000 <=? t)%Z
  | None => false
  end.

Definition late_at (cfg : Settings) (now : Z) (r : Reading.t) : bool :=
  match naive_time r with
  | Some t => (t <? now - MAX_LATE_ARRIVAL_MINUTES cfg * 60000000)%Z
  | None => false
  end.

(** The rows a batch may add: one bound from a record that validation
    accepts and that is on time. *)
Definition ingested `{Builtins} (cfg : Settings) (now : Z) (d : Session)
    (readings : list (gmap string pyval)) (row : SensorReading.t) : Prop :=
  ∃ reading r, reading ∈ readings ∧ accepted d reading = Some r
    ∧ on_time_at cfg now r = true ∧ bind_params r = Some row.



(** The stages before the insert leave the open transaction alone. *)
Definition same_pending (p p' : DataIngestionPipeline) : Prop :=
  new_readings (db p') = new_readings (db p).

(** How many of the three risk factors hold. *)
Definition risk_factors (days_since_calibration : option Z) (alert_count reading_count : Z)
    : nat :=
  Nat.b2n (match days_since_calibration with
           | Some days => bool_decide (180 < days)%Z
           | None => false
           end)
  + Nat.b2n (bool_decide (10 < alert_count)%Z)
  + Nat.b2n (bool_decide (10000 < reading_count)%Z).

(** The readings that the query of [detect_anomalies] selects, oldest first. *)
Definition window (now : Z) (equipment_id metric_name : string) (lookback_hours : Z)
    (d : Session) : list SensorReading.t :=
  order_by_asc SensorReading.time
    (filter (λ r, SensorReading.equipment_id r = equipment_id
                  ∧ SensorReading.metric_name r = metric_name
                  ∧ (now - lookback_hours * 3600000000 < SensorReading.time r)%Z)
       (visible_readings d)).

(** A detector that flags the first row, with a score below -0.5. *)
Definition alarmed_numerics : Numerics := {|
  features := fun values => map (fun v => (v, v, 0%float, 0%float)) values;
  isolation_forest := fun rows =>
    Return (match rows with
            | [] => []
            | _ :: rest => ((-1)%Z, (-0.625)%float) :: map (fun _ => (1%Z, (-0.25)%float)) rest
            end);
  polyfit_slope := fun _ => Return 0%float;
  mean := fun values => hd 0%float values;
  series_min := fun values => hd 0%float values;
  series_max := fun values => hd 0%float values
|}.

(** The readings of one metric above its threshold in the window of
    [check_thresholds], and the ten newest of them, newest first. *)
Definition exceeding (now : Z) (equipment_id : string) (lookback_minutes : Z)
    (metric_name : string) (threshold : float) (d : Session) : list SensorReading.t :=
  filter (λ r, SensorReading.equipment_id r = equipment_id
               ∧ SensorReading.metric_name r = metric_name
               ∧ (now - lookback_minutes * 60000000 < SensorReading.time r)%Z
               ∧ (threshold <? SensorReading.metric_value r)%float = true)
    (visible_readings d).

Definition newest_ten (rows : list SensorReading.t) : list SensorReading.t :=
  take 10 (order_by_desc SensorReading.time rows).

Definition violation_of (metric_name : string) (threshold : float) (row : SensorReading.t)
    : ThresholdViolation.t :=
  {| ThresholdViolation.time := SensorReading.time row;
     ThresholdViolation.metric_name := metric_name;
     ThresholdViolation.metric_value := SensorReading.metric_value row;
     ThresholdViolation.metric_unit := SensorReading.metric_unit row;
     ThresholdViolation.threshold := threshold;
     ThresholdViolation.severity :=
       severity_by_ratio (SensorReading.metric_value row / threshold)%float |}.

(** The record that validation makes of a reading of the API. *)
Definition record_of (reading : api_ingestion.SensorReadingInput) : Reading.t :=
  {| Reading.time := VDatetime (api_ingestion.time reading);
     Reading.equipment_id := VStr (api_ingestion.equipment_id reading);
     Reading.metric_name := VStr (api_ingestion.metric_name reading);
     Reading.metric_value := api_ingestion.metric_value reading;
     Reading.metric_unit := from_option VStr VNone (api_ingestion.metric_unit reading);
     Reading.reading_status := VStr (api_ingestion.reading_status reading);
     Reading.metadata := VDict (api_ingestion.metadata reading) |}.

(** Its value is a finite number inside the range of its metric. *)
Definition reasonable (reading : api_ingestion.SensorReadingInput) : bool :=
  within (reasonable_range (VStr (api_ingestion.metric_name reading)))
    (api_ingestion.metric_value reading)
  && is_finite (api_ingestion.metric_value reading).

(** The hourly rows that [analyze_trends] reads. *)
Definition hourly_window (now : Z) (equipment_id metric_name : string) (period_days : Z)
    (d : Session) : list HourlyBucket.t :=
  order_by_asc HourlyBucket.bucket
    (filter (λ b, HourlyBucket.equipment_id b = equipment_id
                  ∧ HourlyBucket.metric_name b = metric_name
                  ∧ (now - period_days * 86400000000 < HourlyBucket.bucket b)%Z)
       (sensor_readings_hourly d)).

(** Twenty-four hourly rows of one sensor with the same average. *)
Definition flat_session : Session :=
  mkSession [Equipment.mk "GAS-001" GAS_DETECTOR None] []
    (map (λ i, HourlyBucket.mk (example_now - hours (Z.of_nat i))%Z "GAS-001"
                 "gas_concentration" 5.0%float 5.0%float 5.0%float 0%float)
       (seq 1 24))
    [] [] [] [] [].

(** * Reasoning about computations *)

Ltac run_monad :=
  unfold add_invalid, add_duplicates, add_late_arrivals, add_total_processed,
    update_stats, on_db in *;
  unfold bind, ret, raise, lift, get, modify, try_except, zoom in *.

Lemma bind_lift {S A B} (o : outcome A) (k : A → M S B) s :
  bind (lift o) k s = match o with Return a => k a s | Raise e => (Raise e, s) end.
Proof. by destruct o. Qed.

Lemma bind_run {S A B} (m : M S A) (k : A → M S B) s o s' :
  bind m k s = (o, s') →
  (∃ a s1, m s = (Return a, s1) ∧ k a s1 = (o, s'))
  ∨ (∃ e, m s = (Raise e, s') ∧ o = Raise e).
Proof.
  unfold bind. destruct (m s) as [[a|e] s1]; intros Hrun.
  - left. by exists a, s1.
  - right. exists e. by simplify_eq.
Qed.

Section Unless.
Context {S : Type} (bad : exn → Prop) (R : S → S → Prop).
Context `{!Reflexive R, !Transitive R}.

Lemma unless_ret {A} (a : A) : unless bad R (ret a).
Proof. intros s. right. reflexivity. Qed.

Lemma unless_raise {A} e : unless bad R (raise (A := A) e).
Proof. intros s. right. reflexivity. Qed.

Lemma unless_lift {A} (o : outcome A) : unless bad R (lift o).
Proof. intros s. right. reflexivity. Qed.

Lemma unless_get : unless bad R get.
Proof. intros s. right. reflexivity. Qed.

Lemma unless_modify (f : S → S) : (∀ s, R s (f s)) → unless bad R (modify f).
Proof. intros Hf s. right. apply Hf. Qed.

Lemma unless_bind {A B} (m : M S A) (k : A → M S B) :
  unless bad R m → (∀ a, unless bad R (k a)) → unless bad R (bind m k).
Proof.
  intros Hm Hk s. unfold bind. destruct (Hm s) as [(e & He & Hbad)|Hs].
  - left. exists e. destruct (m s) as [[a|e'] s1]; simpl in *; [done|].
    by simplify_eq.
  - destruct (m s) as [[a|e] s1]; simpl in *; [|by right].
    destruct (Hk a s1) as [Hraise|Hs1]; [by left|].
    right. by etrans.
Qed.

Lemma unless_for_each {A} (l : list A) (body : A → M S unit) :
  (∀ x, unless bad R (body x)) → unless bad R (for_each l body).
Proof.
  intros Hb. induction l as [|x l IH]; simpl.
  - apply unless_ret.
  - apply unless_bind; [apply Hb | intros _; apply IH].
Qed.

(** A handler for exceptions that are not [bad]. *)
Lemma unless_try_except {A} (body : M S A) catches handler :
  unless bad R body → (∀ e, catches e = true → ¬ bad e) → (∀ e, unless bad R (handler e)) →
  unless bad R (try_except body catches handler).
Proof.
  intros Hb Hc Hh s. unfold try_except. destruct (Hb s) as [(e & He & Hbad)|Hs].
  - destruct (body s) as [[a|e'] s1]; simpl in *; [done|]. simplify_eq.
    destruct (catches e) eqn:Hcatch; [by apply Hc in Hcatch|].
    left. by exists e.
  - destruct (body s) as [[a|e] s1]; simpl in *; [by right|].
    destruct (catches e); [|by right].
    destruct (Hh e s1) as [Hraise|Hs1]; [by left|].
    right. by etrans.
Qed.

End Unless.

Lemma preserves_run {S A} (R : S → S → Prop) (m : M S A) s o s' :
  preserves R m → m s = (o, s') → R s s'.
Proof. intros Hm Hrun. destruct (Hm s) as [(e & _ & [])|Hs]. by rewrite Hrun in Hs. Qed.


Lemma unless_zoom {S T A} bad (R : S → S → Prop) (Q : T → T → Prop)
    (proj : S → T) (inj : T → S → S) (m : M T A) :
  (∀ s t, Q (proj s) t → R s (inj t s)) →
  unless bad Q m → unless bad R (zoom proj inj m).
Proof.
  intros HQ Hm s. unfold zoom. destruct (Hm (proj s)) as [(e & He & Hbad)|Hs];
    destruct (m (proj s)) as [o t]; simpl in *.
  - left. by exists e.
  - right. by apply HQ.
Qed.

(** * The ingestion pipeline *)

Lemma on_db_query_equipment equipment_id d st :
  on_db (query_equipment equipment_id) (mkPipeline d st) =
  match faults d with
  | true :: fs => (Raise SQLAlchemyError, mkPipeline (set_faults fs d) st)
  | false :: fs => (Return (first_equipment equipment_id d), mkPipeline (set_faults fs d) st)
  | [] => (Return (first_equipment equipment_id d), mkPipeline d st)
  end.
Proof.
  unfold on_db, zoom, query_equipment, round_trip, first_equipment. simpl.
  by destruct (faults d) as [|[] fs].
Qed.

Lemma validate_reading_unfold `{Builtins} reading p :
  validate_reading reading p =
  match precheck reading with
  | Skip => (Return None, mkPipeline (db p) (one_more_invalid (stats p)))
  | Escape e => (Raise e, p)
  | Candidate r =>
      match faults (db p) with
      | true :: fs => (Raise SQLAlchemyError, mkPipeline (set_faults fs (db p)) (stats p))
      | false :: fs => answer r (set_faults fs (db p)) (stats p)
      | [] => answer r (db p) (stats p)
      end
  end.
Proof.
  destruct p as [d st].
  unfold validate_reading, precheck, getitem, required_fields.
  unfold try_except. simpl.
  destruct (reading !! "equipment_id") as [equipment_id|]; simpl; [|by run_monad].
  destruct (reading !! "metric_name") as [metric_name|]; simpl; [|by run_monad].
  destruct (reading !! "metric_value") as [raw|]; simpl; [|by run_monad].
  destruct (reading !! "time") as [time|]; simpl; [|by run_monad].
  rewrite !bind_lift.
  destruct (py_float raw) as [metric_value|e]; [|by destruct (validation_errors e)].
  rewrite bind_lift.
  destruct time as [| | |s| |]; simpl; try destruct (fromisoformat (replace_Z s)); simpl;
    try (by run_monad);
    (unfold bind at 1; unfold ret at 1; rewrite !bind_lift;
     destruct (_is_value_reasonable metric_name metric_value) as [[]|e]; simpl;
     [ rewrite bind_lift; unfold bind at 1; rewrite on_db_query_equipment;
       unfold answer, registered, first_equipment; simpl;
       destruct (faults d) as [|[] fs]; simpl; try done;
       by destruct equipment_id; simpl; try done; destruct (List.find _ _)
     | by run_monad
     | by destruct (validation_errors e) ]).
Qed.

(** ** Counting through the stages of [ingest_batch] *)

Lemma validate_reading_count `{Builtins} reading p o p' :
  validate_reading reading p = (o, p') →
  total_processed (stats p') = total_processed (stats p)
  ∧ duplicates (stats p') = duplicates (stats p)
  ∧ late_arrivals (stats p') = late_arrivals (stats p)
  ∧ invalid (stats p') =
      invalid (stats p) + match o with Return None => 1 | _ => 0 end.
Proof.
  rewrite validate_reading_unfold. unfold answer.
  destruct (precheck reading) as [|e|r]; [| |destruct (faults (db p)) as [|[] fs]];
    try destruct (registered _ _); intros [= <- <-]; simpl; lia.
Qed.

Lemma validate_loop_count `{Builtins} readings p validated p' :
  validate_loop readings p = (Return validated, p') →
  total_processed (stats p') = total_processed (stats p)
  ∧ duplicates (stats p') = duplicates (stats p)
  ∧ late_arrivals (stats p') = late_arrivals (stats p)
  ∧ invalid (stats p') + length validated = invalid (stats p) + length readings.
Proof.
  revert p validated p'. induction readings as [|reading rest IH]; intros p validated p'; simpl.
  - intros [= <- <-]. simpl. lia.
  - intros Hrun.
    apply bind_run in Hrun as [(v & p1 & Hv & Hrun)|(e & _ & [=])].
    apply bind_run in Hrun as [(vs & p2 & Hvs & Hrun)|(e & _ & [=])].
    injection Hrun as <- <-.
    apply validate_reading_count in Hv. apply IH in Hvs.
    destruct v; simpl; lia.
Qed.

Lemma validate_readings_count `{Builtins} readings p validated p' :
  _validate_readings readings p = (Return validated, p') →
  total_processed (stats p') = total_processed (stats p) + length readings
  ∧ duplicates (stats p') = duplicates (stats p)
  ∧ late_arrivals (stats p') = late_arrivals (stats p)
  ∧ invalid (stats p') + length validated = invalid (stats p) + length readings.
Proof.
  unfold _validate_readings. intros Hrun.
  apply bind_run in Hrun as [(vs & p1 & Hvs & Hrun)|(e & _ & [=])].
  apply validate_loop_count in Hvs.
  run_monad. injection Hrun as <- <-. simpl. lia.
Qed.

Lemma drop_duplicates_length seen df :
  length (drop_duplicates seen df) ≤ length df.
Proof.
  revert seen. induction df as [|r rest IH]; intros seen; simpl; [lia|].
  case_bool_decide; simpl; [specialize (IH seen) | specialize (IH (subset r :: seen))]; lia.
Qed.

Lemma deduplicate_count readings p unique p' :
  _deduplicate readings p = (Return unique, p') →
  db p' = db p
  ∧ total_processed (stats p') = total_processed (stats p)
  ∧ invalid (stats p') = invalid (stats p)
  ∧ late_arrivals (stats p') = late_arrivals (stats p)
  ∧ duplicates (stats p') + length unique = duplicates (stats p) + length readings.
Proof.
  unfold _deduplicate. destruct readings as [|r rest].
  - intros [= <- <-]. repeat split; simpl; lia.
  - destruct (existsb _ _); [done|]. run_monad. intros [= <- <-]. simpl.
    pose proof (drop_duplicates_length [] (r :: rest)) as Hle. simpl in Hle.
    repeat split; try done. lia.
Qed.

Lemma comprehension_ge_lt (cutoff : datetime) (readings on_time late : list Reading.t) :
  comprehension (fun r => py_ge (Reading.time r) cutoff) readings = Return on_time →
  comprehension (fun r => py_lt (Reading.time r) cutoff) readings = Return late →
  length on_time + length late = length readings.
Proof.
  revert on_time late. induction readings as [|r rest IH]; intros on_time late; simpl.
  - by intros [= <-] [= <-].
  - unfold py_ge, py_lt. destruct (comparable (Reading.time r) cutoff) as [d|e]; [|done].
    destruct (comprehension _ rest) as [on_time'|e]; [|done].
    destruct (comprehension _ rest) as [late'|e]; [|done].
    intros [= <-] [= <-]. specialize (IH _ _ eq_refl eq_refl).
    destruct (instant cutoff <=? instant d)%Z eqn:Hge, (instant d <? instant cutoff)%Z eqn:Hlt;
      simpl; try lia.
Qed.

Lemma check_timeliness_count cfg now readings on_time late :
  _check_timeliness cfg now readings = Return (on_time, late) →
  length on_time + length late = length readings.
Proof.
  unfold _check_timeliness. destruct readings as [|r rest]; [by intros [= <- <-]|].
  destruct (comprehension _ (r :: rest)) as [on_time'|e] eqn:Hge; [|done].
  destruct (comprehension (fun r => py_lt _ _) (r :: rest)) as [late'|e] eqn:Hlt; [|done].
  intros [= <- <-]. by eapply comprehension_ge_lt.
Qed.

(** ** Stages that leave the counters alone *)

#[local] Instance same_stats_refl : Reflexive same_stats.
Proof. by intros p. Qed.

#[local] Instance same_stats_trans : Transitive same_stats.
Proof. intros p q r Hpq Hqr. unfold same_stats in *. congruence. Qed.

Lemma on_db_same_stats {A} bad (m : M Session A) : unless bad same_stats (on_db m).
Proof. intros p. right. unfold on_db, zoom. by destruct (m (db p)). Qed.

Lemma bulk_insert_same_stats cfg readings :
  preserves same_stats (_bulk_insert cfg readings).
Proof.
  unfold _bulk_insert, preserves. destruct readings; [apply unless_ret; apply _|].
  apply unless_try_except; try apply _; [| by intros ? ? [] |].
  - apply unless_bind; try apply _; [apply unless_lift; apply _|].
    intros chunks. apply unless_for_each; try apply _.
    intros batch. apply unless_bind; try apply _; intros; apply on_db_same_stats.
  - intros e. apply unless_bind; try apply _; [apply on_db_same_stats|].
    intros _. apply unless_raise; apply _.
Qed.

Lemma record_quality_metrics_same_stats cfg processing_time :
  preserves same_stats (_record_quality_metrics cfg processing_time).
Proof.
  unfold _record_quality_metrics, _check_quality_thresholds, preserves.
  apply unless_try_except; try apply _; [| by intros ? ? [] |].
  - repeat (apply unless_bind; try apply _; [| intros ?]);
      first [apply unless_get | apply on_db_same_stats | apply unless_ret]; apply _.
  - intros e. apply unless_ret; apply _.
Qed.

Lemma record_quality_metrics_returns cfg processing_time p :
  (_record_quality_metrics cfg processing_time p).1 = Return tt.
Proof.
  unfold _record_quality_metrics, try_except.
  by destruct (bind _ _ p) as [[[]|e] p1].
Qed.

(** The stages of a call that ends in [Success]. *)
Lemma ingest_batch_stages `{Builtins} cfg now processing_time readings p result p' :
  ingest_batch cfg now processing_time readings p = (Return result, p') →
  (∃ e, result = Failure e (length readings))
  ∨ ∃ validated p1 unique p2 on_time late p3 p4,
      _validate_readings readings p = (Return validated, p1)
      ∧ _deduplicate validated p1 = (Return unique, p2)
      ∧ _check_timeliness cfg now unique = Return (on_time, late)
      ∧ p3 = mkPipeline (db p2)
               (mkStats (total_processed (stats p2)) (invalid (stats p2))
                  (duplicates (stats p2)) (late_arrivals (stats p2) + length late))
      ∧ match on_time with [] => ret tt | _ => _bulk_insert cfg on_time end p3
          = (Return tt, p4)
      ∧ _record_quality_metrics cfg processing_time p4 = (Return tt, p')
      ∧ result = Success (length readings) (length on_time) (invalid (stats p'))
                   (duplicates (stats p')) (late_arrivals (stats p')) processing_time.
Proof.
  unfold ingest_batch, try_except.
  destruct (bind _ _ p) as [[r|e] q] eqn:Hbody; simpl;
    [|intros [= <- <-]; left; by exists e].
  intros [= -> ->]. right.
  apply bind_run in Hbody as [(validated & p1 & Hv & Hbody)|(e & _ & [=])].
  apply bind_run in Hbody as [(unique & p2 & Hu & Hbody)|(e & _ & [=])].
  apply bind_run in Hbody as [([on_time late] & p2' & Ht & Hbody)|(e & _ & [=])].
  unfold lift in Ht. injection Ht as Ht <-.
  apply bind_run in Hbody as [([] & p3 & Hl & Hbody)|(e & _ & [=])].
  apply bind_run in Hbody as [([] & p4 & Hi & Hbody)|(e & _ & [=])].
  apply bind_run in Hbody as [([] & p5 & Hm & Hbody)|(e & _ & [=])].
  run_monad. injection Hbody as <- <-. injection Hl as <-.
  eexists validated, p1, unique, p2, on_time, late, _, p4.
  repeat split; done.
Qed.

(** The books of a successful call balance: what came in is what was
    inserted plus what the call added to the three counters. *)
Lemma ingest_batch_accounting `{Builtins} cfg now processing_time readings p p'
    total_received total_inserted invalid_count duplicate_count late_arrival_count ms :
  ingest_batch cfg now processing_time readings p =
    (Return (Success total_received total_inserted invalid_count duplicate_count
               late_arrival_count ms), p') →
  total_received = length readings
  ∧ invalid_count = invalid (stats p')
  ∧ duplicate_count = duplicates (stats p')
  ∧ late_arrival_count = late_arrivals (stats p')
  ∧ total_processed (stats p') = total_processed (stats p) + length readings
  ∧ total_received + invalid (stats p) + duplicates (stats p) + late_arrivals (stats p)
    = total_inserted + invalid_count + duplicate_count + late_arrival_count.
Proof.
  intros Hrun. apply ingest_batch_stages in Hrun as [[e [=]]|Hstages].
  destruct Hstages as
    (validated & p1 & unique & p2 & on_time & late & p3 & p4 &
     Hv & Hu & Ht & -> & Hi & Hm & [= -> -> -> -> ->]).
  apply validate_readings_count in Hv. apply deduplicate_count in Hu.
  apply check_timeliness_count in Ht.
  assert (Hs4 : stats p4 = mkStats (total_processed (stats p2)) (invalid (stats p2))
                  (duplicates (stats p2)) (late_arrivals (stats p2) + length late)).
  { destruct on_time.
    - by injection Hi as <-.
    - by apply (preserves_run same_stats) in Hi; [|apply bulk_insert_same_stats]. }
  apply (preserves_run same_stats) in Hm; [|apply record_quality_metrics_same_stats].
  unfold same_stats in Hm. rewrite Hm, Hs4. simpl. lia.
Qed.

(** ** The counters only ever grow: a call does not look at them

    Running a stage on a pipeline whose counters start higher gives the same
    outcome, the same session, and counters that are higher by as much. *)

Lemma blind_ret {A} (a : A) : blind (ret a).
Proof. done. Qed.

Lemma blind_raise {A} e : blind (raise (A := A) e).
Proof. done. Qed.

Lemma blind_lift {A} (o : outcome A) : blind (lift o).
Proof. done. Qed.

Lemma blind_bind {A B} (m : P A) (k : A → P B) :
  blind m → (∀ a, blind (k a)) → blind (bind m k).
Proof.
  intros Hm Hk st p. unfold bind. rewrite Hm.
  destruct (m p) as [[a|e] p1]; simpl; [apply Hk | done].
Qed.

Lemma blind_try_except {A} (body : P A) catches handler :
  blind body → (∀ e, blind (handler e)) → blind (try_except body catches handler).
Proof.
  intros Hb Hh st p. unfold try_except. rewrite Hb.
  destruct (body p) as [[a|e] p1]; simpl; [done|].
  destruct (catches e); [apply Hh | done].
Qed.

Lemma blind_for_each {A} (l : list A) (body : A → P unit) :
  (∀ x, blind (body x)) → blind (for_each l body).
Proof.
  intros Hb. induction l as [|x l IH]; simpl; [apply blind_ret|].
  apply blind_bind; [apply Hb | intros _; apply IH].
Qed.

Lemma blind_on_db {A} (m : M Session A) : blind (on_db m).
Proof. intros st p. unfold on_db, zoom. simpl. by destruct (m (db p)). Qed.

Lemma blind_add_invalid n : blind (add_invalid n).
Proof.
  intros st p. unfold add_invalid, update_stats, modify, rebase, plus_stats. simpl.
  do 3 f_equal. lia.
Qed.

Lemma blind_add_total_processed n : blind (add_total_processed n).
Proof.
  intros st p. unfold add_total_processed, update_stats, modify, rebase, plus_stats. simpl.
  do 3 f_equal. lia.
Qed.

Lemma blind_add_duplicates n : blind (add_duplicates n).
Proof.
  intros st p. unfold add_duplicates, update_stats, modify, rebase, plus_stats. simpl.
  do 3 f_equal. lia.
Qed.

Lemma blind_add_late_arrivals n : blind (add_late_arrivals n).
Proof.
  intros st p. unfold add_late_arrivals, update_stats, modify, rebase, plus_stats. simpl.
  do 3 f_equal. lia.
Qed.

Create HintDb blind.
#[local] Hint Resolve blind_ret blind_raise blind_lift blind_on_db blind_add_invalid
  blind_add_total_processed blind_add_duplicates blind_add_late_arrivals : blind.

Lemma blind_validate_reading `{Builtins} reading : blind (validate_reading reading).
Proof.
  intros st p. rewrite !validate_reading_unfold. unfold answer, rebase. simpl.
  destruct (precheck reading) as [|e|r]; simpl.
  - unfold one_more_invalid, plus_stats. simpl. do 3 f_equal. lia.
  - done.
  - destruct (faults (db p)) as [|[] fs]; simpl; try done;
      destruct (registered _ _); simpl; try done;
      unfold one_more_invalid, plus_stats; simpl; do 3 f_equal; lia.
Qed.

Lemma blind_validate_loop `{Builtins} readings : blind (validate_loop readings).
Proof.
  induction readings as [|reading rest IH]; simpl; [apply blind_ret|].
  apply blind_bind; [apply blind_validate_reading|]. intros v.
  apply blind_bind; [apply IH|]. intros vs. apply blind_ret.
Qed.

Lemma blind_validate_readings `{Builtins} readings : blind (_validate_readings readings).
Proof.
  unfold _validate_readings.
  apply blind_bind; [apply blind_validate_loop|]. intros vs.
  apply blind_bind; auto with blind.
Qed.

Lemma blind_deduplicate readings : blind (_deduplicate readings).
Proof.
  unfold _deduplicate. destruct readings; [apply blind_ret|].
  destruct (existsb _ _); [apply blind_raise|].
  apply blind_bind; auto with blind.
Qed.

Lemma blind_bulk_insert cfg readings : blind (_bulk_insert cfg readings).
Proof.
  unfold _bulk_insert. destruct readings; [apply blind_ret|].
  apply blind_try_except.
  - apply blind_bind; [apply blind_lift|]. intros chunks.
    apply blind_for_each. intros batch. apply blind_bind; auto with blind.
  - intros e. apply blind_bind; auto with blind.
Qed.

Lemma ingest_batch_returns `{Builtins} cfg now processing_time readings p :
  ∃ result, (ingest_batch cfg now processing_time readings p).1 = Return result.
Proof.
  unfold ingest_batch, try_except.
  destruct (bind _ _ p) as [[r|e] q]; simpl; eauto.
Qed.

Lemma bind_eq {S A B} (m : M S A) (k : A → M S B) s :
  bind m k s =
  match m s with
  | (Return a, s') => k a s'
  | (Raise e, s') => (Raise e, s')
  end.
Proof. done. Qed.

Lemma bind_rebase {A B} (m : P A) (k : A → P B) st p :
  blind m →
  bind m k (rebase st p) =
  match m p with
  | (Return a, p1) => k a (rebase st p1)
  | (Raise e, p1) => (Raise e, rebase st p1)
  end.
Proof. intros Hm. unfold bind. rewrite Hm. by destruct (m p) as [[a|e] p1]. Qed.

Lemma ingest_batch_rebase `{Builtins} cfg now processing_time readings st p result :
  (ingest_batch cfg now processing_time readings p).1 = Return result →
  (ingest_batch cfg now processing_time readings (rebase st p)).1
  = Return (carried st result).
Proof.
  unfold ingest_batch, try_except. intros Hp.
  rewrite bind_rebase by apply blind_validate_readings. rewrite bind_eq in Hp.
  destruct (_validate_readings readings p) as [[validated|e] p1]; simpl in *;
    [|by injection Hp as <-].
  rewrite bind_rebase by apply blind_deduplicate. rewrite bind_eq in Hp.
  destruct (_deduplicate validated p1) as [[unique|e] p2]; simpl in *;
    [|by injection Hp as <-].
  rewrite bind_lift. rewrite bind_lift in Hp.
  destruct (_check_timeliness cfg now unique) as [[on_time late]|e]; simpl in *;
    [|by injection Hp as <-].
  rewrite bind_rebase by apply blind_add_late_arrivals. rewrite bind_eq in Hp.
  destruct (add_late_arrivals (length late) p2) as [[[]|e] p3]; simpl in *;
    [|by injection Hp as <-].
  assert (Hins : blind (match on_time with [] => ret tt | _ => _bulk_insert cfg on_time end)).
  { destruct on_time; [apply blind_ret | apply blind_bulk_insert]. }
  rewrite bind_rebase by apply Hins. rewrite bind_eq in Hp.
  destruct (match on_time with [] => ret tt | _ => _bulk_insert cfg on_time end p3)
    as [[[]|e] p4]; simpl in *; [|by injection Hp as <-].
  rewrite bind_eq. rewrite bind_eq in Hp.
  pose proof (record_quality_metrics_returns cfg processing_time p4) as Hr.
  pose proof (record_quality_metrics_returns cfg processing_time (rebase st p4)) as Hr'.
  destruct (_record_quality_metrics cfg processing_time p4) as [o5 p5] eqn:Hm.
  destruct (_record_quality_metrics cfg processing_time (rebase st p4)) as [o5' p5'] eqn:Hm'.
  simpl in Hr, Hr'. subst o5 o5'.
  apply (preserves_run same_stats) in Hm; [|apply record_quality_metrics_same_stats].
  apply (preserves_run same_stats) in Hm'; [|apply record_quality_metrics_same_stats].
  unfold same_stats in *. run_monad. simpl in *. rewrite Hm', Hm in *. simpl.
  by injection Hp as <-.
Qed.

(** ** What the round trips do to the session *)

Lemma insert_row_frame d r :
  equipment (insert_row d r) = equipment d
  ∧ sensor_readings (insert_row d r) = sensor_readings d
  ∧ data_quality_metrics (insert_row d r) = data_quality_metrics d
  ∧ new_metrics (insert_row d r) = new_metrics d
  ∧ faults (insert_row d r) = faults d.
Proof. unfold insert_row. by case_bool_decide. Qed.

Lemma insert_rows_frame rows d :
  equipment (foldl insert_row d rows) = equipment d
  ∧ sensor_readings (foldl insert_row d rows) = sensor_readings d
  ∧ data_quality_metrics (foldl insert_row d rows) = data_quality_metrics d
  ∧ new_metrics (foldl insert_row d rows) = new_metrics d
  ∧ faults (foldl insert_row d rows) = faults d.
Proof.
  revert d. induction rows as [|r rows IH]; intros d; simpl; [done|].
  destruct (IH (insert_row d r)) as (-> & -> & -> & -> & ->). apply insert_row_frame.
Qed.

#[local] Instance answered_refl : Reflexive answered.
Proof. intros d. by exists []. Qed.

#[local] Instance answered_trans : Transitive answered.
Proof.
  intros d1 d2 d3 (u1 & H1 & Hu1) (u2 & H2 & Hu2). exists (u1 ++ u2). split.
  - by rewrite H1, H2, (assoc_L (++)).
  - by apply Forall_app.
Qed.

Lemma answered_round_trip {A} (f : Session → outcome A * Session) :
  (∀ d, faults (f d).2 = faults d) →
  unless store_failure answered (round_trip f).
Proof.
  intros Hf d. unfold round_trip. destruct (faults d) as [|[] fs] eqn:Hd.
  - right. exists []. by rewrite Hf.
  - left. by exists SQLAlchemyError.
  - right. exists [false]. rewrite Hf. split; [done | by repeat constructor].
Qed.

Lemma answered_query_equipment eid :
  unless store_failure answered (query_equipment eid).
Proof. by apply answered_round_trip. Qed.




Lemma answered_select_readings e m c :
  unless store_failure answered (select_readings e m c).
Proof. by apply answered_round_trip. Qed.

Lemma answered_select_violations e m c t :
  unless store_failure answered (select_violations e m c t).
Proof. by apply answered_round_trip. Qed.


Lemma answered_count_alerts e c : unless store_failure answered (count_alerts e c).
Proof. by apply answered_round_trip. Qed.

Lemma answered_count_readings e c : unless store_failure answered (count_readings e c).
Proof. by apply answered_round_trip. Qed.

(** A round trip either succeeds or raises the store's exception. *)
Lemma round_trip_outcome {A} (f : Session → outcome A * Session) d :
  (∀ d, ∃ a, (f d).1 = Return a) →
  (∃ a, (round_trip f d).1 = Return a) ∨ (round_trip f d).1 = Raise SQLAlchemyError.
Proof.
  intros Hf. unfold round_trip. destruct (faults d) as [|[] fs]; simpl; eauto.
Qed.

#[local] Instance all_answered_refl : Reflexive all_answered.
Proof. intros p. unfold all_answered. reflexivity. Qed.

#[local] Instance all_answered_trans : Transitive all_answered.
Proof. intros p q r. unfold all_answered. apply answered_trans. Qed.


Lemma all_answered_update_stats f : unless store_failure all_answered (update_stats f).
Proof. apply unless_modify. intros p. unfold all_answered. simpl. reflexivity. Qed.



Lemma all_answered_deduplicate readings :
  unless store_failure all_answered (_deduplicate readings).
Proof.
  unfold _deduplicate. destruct readings; [apply unless_ret; apply _|].
  destruct (existsb _ _); [apply unless_raise; apply _|].
  apply unless_bind; try apply _; [apply all_answered_update_stats|].
  intros _. apply unless_ret; apply _.
Qed.


(** [_record_quality_metrics] swallows the failure of its commit. *)
Lemma record_quality_metrics_cases cfg processing_time p :
  let metric := {|
    DataQualityMetric.total_records_processed := total_processed (stats p);
    DataQualityMetric.invalid_records := invalid (stats p);
    DataQualityMetric.duplicate_records := duplicates (stats p);
    DataQualityMetric.late_arriving_records := late_arrivals (stats p);
    DataQualityMetric.processing_time_ms := processing_time;
    DataQualityMetric.pipeline_stage := "ingestion";
    DataQualityMetric.duplicate_rate :=
      true_div (duplicates (stats p)) (max (total_processed (stats p)) 1);
    DataQualityMetric.invalid_rate :=
      true_div (invalid (stats p)) (max (total_processed (stats p)) 1)
  |} in
  let committed fs :=
    mkSession (equipment (db p)) (sensor_readings (db p) ++ new_readings (db p))
      (sensor_readings_hourly (db p)) (alerts (db p))
      (data_quality_metrics (db p) ++ new_metrics (db p) ++ [metric]) [] [] fs in
  _record_quality_metrics cfg processing_time p =
  match faults (db p) with
  | [] => (Return tt, mkPipeline (committed []) (stats p))
  | false :: fs => (Return tt, mkPipeline (committed fs) (stats p))
  | true :: fs =>
      (Return tt,
       mkPipeline (set_faults fs (set_new_metrics (new_metrics (db p) ++ [metric]) (db p)))
         (stats p))
  end.
Proof.
  destruct p as [d st]. simpl.
  unfold _record_quality_metrics, _check_quality_thresholds, add, commit, round_trip.
  run_monad. simpl.
  destruct (faults d) as [|[] fs]; simpl; by rewrite ?(assoc_L (++)).
Qed.

(** ** A session with no fault to come and nothing pending *)

#[local] Instance settled_refl : Reflexive settled.
Proof. by intros d Hf Hn. Qed.

#[local] Instance settled_trans : Transitive settled.
Proof.
  intros d1 d2 d3 H12 H23 Hf Hn.
  destruct (H12 Hf Hn) as (Hf2 & Hn2 & Hq2).
  destruct (H23 Hf2 Hn2) as (Hf3 & Hn3 & Hq3). by rewrite Hq3.
Qed.

Lemma settled_round_trip {A} (f : Session → outcome A * Session) :
  (∀ d, settled d (f d).2) → preserves settled (round_trip f).
Proof.
  intros Hf d. right. intros Hd Hn. unfold round_trip. rewrite Hd. by apply Hf.
Qed.

Lemma settled_query_equipment eid : preserves settled (query_equipment eid).
Proof. apply settled_round_trip. intros d. reflexivity. Qed.

Lemma settled_execute_insert batch : preserves settled (execute_insert batch).
Proof.
  apply settled_round_trip. intros d. destruct (mapM id batch); simpl; [|reflexivity].
  intros Hf Hn. by destruct (insert_rows_frame l d) as (_ & _ & -> & -> & ->).
Qed.

Lemma settled_commit : preserves settled commit.
Proof.
  apply settled_round_trip. intros d Hf Hn. simpl. by rewrite Hn, app_nil_r.
Qed.

Lemma settled_rollback : preserves settled rollback.
Proof. apply settled_round_trip. by intros d Hf Hn. Qed.

#[local] Instance all_settled_refl : Reflexive all_settled.
Proof. intros p. unfold all_settled. reflexivity. Qed.

#[local] Instance all_settled_trans : Transitive all_settled.
Proof. intros p q r. unfold all_settled. apply settled_trans. Qed.

Lemma all_settled_on_db {A} (m : M Session A) :
  preserves settled m → preserves all_settled (on_db m).
Proof. apply unless_zoom. by intros s t. Qed.

Lemma all_settled_update_stats f : preserves all_settled (update_stats f).
Proof. apply unless_modify. intros p. unfold all_settled. simpl. reflexivity. Qed.

Lemma all_settled_validate_reading `{Builtins} reading :
  preserves all_settled (validate_reading reading).
Proof.
  intros p. right. rewrite validate_reading_unfold. unfold answer, all_settled.
  destruct (precheck reading) as [|e|r]; simpl; [done | done |].
  destruct (faults (db p)) as [|[] fs] eqn:Hd; simpl;
    try destruct (registered _ _); simpl; intros Hf Hn; simpl; done || congruence.
Qed.

Lemma all_settled_validate_readings `{Builtins} readings :
  preserves all_settled (_validate_readings readings).
Proof.
  unfold _validate_readings, preserves. apply unless_bind; try apply _.
  - induction readings as [|reading rest IH]; simpl; [apply unless_ret; apply _|].
    apply unless_bind; try apply _; [apply all_settled_validate_reading|].
    intros v. apply unless_bind; try apply _; [apply IH|].
    intros vs. apply unless_ret; apply _.
  - intros vs. apply unless_bind; try apply _; [apply all_settled_update_stats|].
    intros _. apply unless_ret; apply _.
Qed.

Lemma all_settled_bulk_insert cfg readings :
  preserves all_settled (_bulk_insert cfg readings).
Proof.
  unfold _bulk_insert, preserves. destruct readings; [apply unless_ret; apply _|].
  apply unless_try_except; try apply _; [| by intros ? ? [] |].
  - apply unless_bind; try apply _; [apply unless_lift; apply _|].
    intros chunks. apply unless_for_each; try apply _.
    intros batch. apply unless_bind; try apply _.
    + apply all_settled_on_db, settled_execute_insert.
    + intros _. apply all_settled_on_db, settled_commit.
  - intros e. apply unless_bind; try apply _.
    + apply all_settled_on_db, settled_rollback.
    + intros _. apply unless_raise; apply _.
Qed.

(** On a settled session a successful call appends one row to
    [data_quality_metrics]: the counters as the call leaves them. *)
Lemma ingest_batch_records `{Builtins} cfg now processing_time readings p p'
    total_received total_inserted invalid_count duplicate_count late_arrival_count ms :
  faults (db p) = [] → new_metrics (db p) = [] →
  ingest_batch cfg now processing_time readings p =
    (Return (Success total_received total_inserted invalid_count duplicate_count
               late_arrival_count ms), p') →
  data_quality_metrics (db p') =
  data_quality_metrics (db p) ++ [{|
    DataQualityMetric.total_records_processed := total_processed (stats p');
    DataQualityMetric.invalid_records := invalid_count;
    DataQualityMetric.duplicate_records := duplicate_count;
    DataQualityMetric.late_arriving_records := late_arrival_count;
    DataQualityMetric.processing_time_ms := processing_time;
    DataQualityMetric.pipeline_stage := "ingestion";
    DataQualityMetric.duplicate_rate :=
      true_div duplicate_count (max (total_processed (stats p')) 1);
    DataQualityMetric.invalid_rate :=
      true_div invalid_count (max (total_processed (stats p')) 1)
  |}].
Proof.
  intros Hf Hn Hrun. apply ingest_batch_stages in Hrun as [[e [=]]|Hstages].
  destruct Hstages as
    (validated & p1 & unique & p2 & on_time & late & p3 & p4 &
     Hv & Hu & Ht & -> & Hi & Hm & [= -> -> -> -> -> ->]).
  apply (preserves_run all_settled) in Hv; [|apply all_settled_validate_readings].
  destruct (Hv Hf Hn) as (Hf1 & Hn1 & Hq1).
  apply deduplicate_count in Hu as (Hdb & _).
  assert (H4 : all_settled p1 p4).
  { destruct on_time.
    - injection Hi as <-. unfold all_settled. simpl. rewrite Hdb. reflexivity.
    - apply (preserves_run all_settled) in Hi; [|apply all_settled_bulk_insert].
      unfold all_settled in *. simpl in Hi. by rewrite Hdb in Hi. }
  destruct (H4 Hf1 Hn1) as (Hf4 & Hn4 & Hq4).
  rewrite record_quality_metrics_cases, Hf4 in Hm. injection Hm as <-. simpl.
  by rewrite Hn4, Hq4, Hq1.
Qed.


(** * The analytics engine *)

(** ** Threshold violations *)

Lemma violations_of_rated rows metric_name threshold result violations :
  Forall (λ row, row ∈ rows ∧ SensorReading.metric_name row = metric_name
                 ∧ (threshold <? SensorReading.metric_value row)%float = true) result →
  violations_of metric_name threshold result = Return violations →
  Forall (rated rows) violations.
Proof.
  revert violations. induction result as [|row rest IH]; intros violations Hrows; simpl.
  - intros [= <-]. constructor.
  - apply Forall_cons in Hrows as [(Hin & Hname & Habove) Hrest].
    unfold _threshold_severity.
    destruct (threshold =? 0)%float; [done|].
    destruct (violations_of metric_name threshold rest) as [vs|e]; [|done].
    intros [= <-]. constructor; [|by apply IH].
    split; [done|]. split; [by exists row|]. done.
Qed.

Lemma select_violations_sound equipment_id metric_name cutoff_time threshold d result d' :
  select_violations equipment_id metric_name cutoff_time threshold d = (Return result, d') →
  visible_readings d' = visible_readings d
  ∧ Forall (λ row, row ∈ visible_readings d ∧ SensorReading.metric_name row = metric_name
                   ∧ (threshold <? SensorReading.metric_value row)%float = true) result.
Proof.
  unfold select_violations, round_trip, order_by_desc.
  assert (Hall : ∀ d0, Forall (λ row, row ∈ visible_readings d0
                   ∧ SensorReading.metric_name row = metric_name
                   ∧ (threshold <? SensorReading.metric_value row)%float = true)
     (take 10 (@merge_sort _ (λ a b, (SensorReading.time b ≤ SensorReading.time a)%Z)
        (λ a b, decide (SensorReading.time b ≤ SensorReading.time a)%Z)
        (filter (λ r, SensorReading.equipment_id r = equipment_id
                     ∧ SensorReading.metric_name r = metric_name
                     ∧ (cutoff_time < SensorReading.time r)%Z
                     ∧ (threshold <? SensorReading.metric_value r)%float = true)
          (visible_readings d0))))).
  { intros d0. apply Forall_forall. intros row Hrow.
    apply elem_of_take in Hrow as (i & Hrow & _).
    apply list_elem_of_lookup_2 in Hrow.
    rewrite merge_sort_Permutation in Hrow.
    apply list_elem_of_filter in Hrow as ((_ & Hname & _ & Habove) & Hin). done. }
  destruct (faults d) as [|[] fs]; intros [= <- <-];
    (split; [done | first [apply Hall | exact (Hall (set_faults fs d))]]).
Qed.

Lemma check_each_rated equipment_id cutoff_time thresholds d violations d' :
  check_each equipment_id cutoff_time thresholds d = (Return violations, d') →
  Forall (rated (visible_readings d)) violations.
Proof.
  revert d violations d'.
  induction thresholds as [|[metric_name threshold] rest IH]; intros d violations d'; simpl.
  - intros [= <- _]. constructor.
  - intros Hrun.
    apply bind_run in Hrun as [(result & d1 & Hsel & Hrun)|(e & _ & [=])].
    rewrite bind_lift in Hrun.
    destruct (violations_of metric_name threshold result) as [found|e] eqn:Hfound; [|done].
    apply bind_run in Hrun as [(vs & d2 & Hvs & Hrun)|(e & _ & [=])].
    injection Hrun as <- <-.
    apply select_violations_sound in Hsel as [Hvis Hrows].
    apply Forall_app. split.
    + by eapply violations_of_rated.
    + rewrite <-Hvis. by eapply IH.
Qed.

Lemma check_thresholds_rated cfg now equipment_id lookback_minutes d violations d' :
  check_thresholds cfg now equipment_id lookback_minutes d = (Return violations, d') →
  Forall (rated (visible_readings d)) violations.
Proof.
  unfold check_thresholds, try_except.
  destruct (bind _ _ d) as [[vs|e] d1] eqn:Hbody; simpl;
    [|intros [= <- _]; constructor].
  intros [= -> ->].
  apply bind_run in Hbody as [([equipment|] & d2 & Hq & Hrun)|(e & _ & [=])].
  - apply check_each_rated in Hrun.
    unfold query_equipment, round_trip in Hq.
    by destruct (faults d) as [|[] fs]; simplify_eq.
  - injection Hrun as <- _. constructor.
Qed.



Lemma check_thresholds_unknown cfg now equipment_id lookback_minutes d :
  faults d = [] →
  first_equipment (VStr equipment_id) d = None →
  check_thresholds cfg now equipment_id lookback_minutes d = (Return [], d).
Proof.
  intros Hd Hfind. unfold check_thresholds, try_except, bind, query_equipment, round_trip.
  by rewrite Hd, Hfind.
Qed.

(** ** Anomaly detection *)




(** ** Trend analysis *)

Lemma analyze_trends_returns `{Numerics} now equipment_id metric_name period_days d :
  ∃ result, (analyze_trends now equipment_id metric_name period_days d).1 = Return result.
Proof.
  unfold analyze_trends, try_except.
  destruct (bind _ _ d) as [[vs|e] d1]; simpl; eauto.
Qed.

Lemma analyze_trends_unreachable `{Numerics} now equipment_id metric_name period_days d fs :
  faults d = true :: fs →
  analyze_trends now equipment_id metric_name period_days d
  = (Return (Error (str SQLAlchemyError)), set_faults fs d).
Proof.
  intros Hd. unfold analyze_trends, try_except, bind, select_hourly, round_trip.
  by rewrite Hd.
Qed.



(** ** Maintenance risk *)

Lemma predict_maintenance_returns now equipment_id d :
  ∃ result, (predict_maintenance now equipment_id d).1 = Return result.
Proof.
  unfold predict_maintenance, try_except.
  destruct (bind _ _ d) as [[vs|e] d1]; simpl; eauto.
Qed.




(** A round trip that returns ran its query on the session, with or without
    one entry of the fault schedule taken off. *)
Lemma round_trip_returns {A} (f : Session → outcome A * Session) d a d' :
  round_trip f d = (Return a, d') →
  f d = (Return a, d') ∨ ∃ fs, f (set_faults fs d) = (Return a, d').
Proof.
  unfold round_trip. destruct (faults d) as [|[] fs]; [by left | done | right; by exists fs].
Qed.

Lemma predict_maintenance_result now equipment_id d risk d' :
  predict_maintenance now equipment_id d = (Return (Result risk), d') →
  ∃ device,
    first_equipment (VStr equipment_id) d = Some device
    ∧ let days_since_calibration :=
        (λ last, (now - last) / 86400000000)%Z <$> Equipment.last_calibration_date device in
      let alert_count :=
        Z.of_nat (length (filter (λ a, Alert.equipment_id a = equipment_id
                                       ∧ (now - 30 * 86400000000 < Alert.triggered_at a)%Z)
                            (alerts d))) in
      let reading_count :=
        Z.of_nat (length (filter (λ r, SensorReading.equipment_id r = equipment_id
                                       ∧ (now - 30 * 86400000000 < SensorReading.time r)%Z)
                            (visible_readings d))) in
      MaintenanceRisk.risk_score risk
        = risk_score_of days_since_calibration alert_count reading_count
      ∧ MaintenanceRisk.risk_level risk = (risk_level_of (MaintenanceRisk.risk_score risk)).1
      ∧ MaintenanceRisk.days_since_calibration risk = days_since_calibration
      ∧ MaintenanceRisk.recent_alerts risk = alert_count.
Proof.
  unfold predict_maintenance, try_except.
  destruct (bind _ _ d) as [[r|e] d1] eqn:Hbody; simpl; [|done].
  intros [= -> ->].
  apply bind_run in Hbody as [([device|] & d2 & Hq & Hrun)|(e & _ & [=])]; [|done].
  exists device.
  apply round_trip_returns in Hq.
  assert (Hd2 : first_equipment (VStr equipment_id) d = Some device
                ∧ alerts d2 = alerts d ∧ visible_readings d2 = visible_readings d).
  { destruct Hq as [Hq|[fs Hq]]; injection Hq as Hfirst <-; by repeat split. }
  destruct Hd2 as (Hfirst & Halerts & Hvisible). split; [done|].
  apply bind_run in Hrun as [(alert_count & d3 & Ha & Hrun)|(e & _ & [=])].
  apply round_trip_returns in Ha.
  assert (Hd3 : alert_count =
                  Z.of_nat (length (filter (λ a, Alert.equipment_id a = equipment_id
                                       ∧ (now - 30 * 86400000000 < Alert.triggered_at a)%Z)
                            (alerts d)))
                ∧ visible_readings d3 = visible_readings d).
  { rewrite <-Halerts, <-Hvisible.
    destruct Ha as [Ha|[fs Ha]]; injection Ha as Hcount <-; by split. }
  destruct Hd3 as (-> & Hvisible3).
  apply bind_run in Hrun as [(reading_count & d4 & Hr & Hrun)|(e & _ & [=])].
  apply round_trip_returns in Hr.
  assert (Hd4 : reading_count =
                  Z.of_nat (length (filter (λ r, SensorReading.equipment_id r = equipment_id
                                       ∧ (now - 30 * 86400000000 < SensorReading.time r)%Z)
                            (visible_readings d)))).
  { rewrite <-Hvisible3. destruct Hr as [Hr|[fs Hr]]; by injection Hr as Hcount <-. }
  subst reading_count.
  destruct (risk_level_of _) as [risk_level recommendation] eqn:Hlevel.
  injection Hrun as <- <-. simpl.
  destruct (Equipment.last_calibration_date device); simpl in *; by rewrite Hlevel.
Qed.

(** ** Validation *)

Lemma ranges_get_spec metric_name :
  ranges_get metric_name =
  match metric_name with
  | VDict _ => Raise TypeError
  | _ => Return (reasonable_range metric_name)
  end.
Proof.
  destruct metric_name as [| | |s| |]; try done.
  unfold ranges_get, reasonable_range.
  destruct (decide (s = "gas_concentration")) as [->|H1]; [by vm_compute|].
  destruct (decide (s = "temperature")) as [->|H2]; [by vm_compute|].
  destruct (decide (s = "pressure")) as [->|H3]; [by vm_compute|].
  destruct (decide (s = "humidity")) as [->|H4]; [by vm_compute|].
  destruct (decide (s = "battery_level")) as [->|H5]; [by vm_compute|].
  rewrite !bool_decide_eq_false_2 by congruence.
  unfold ranges. simpl. by rewrite !lookup_insert_ne, lookup_empty.
Qed.

Lemma is_value_reasonable_spec metric_name value :
  _is_value_reasonable metric_name value =
  match metric_name with
  | VDict _ => Raise TypeError
  | _ => Return (within (reasonable_range metric_name) value && is_finite value)
  end.
Proof.
  unfold _is_value_reasonable. rewrite ranges_get_spec.
  destruct metric_name; try done;
    destruct (reasonable_range _) as [lo hi]; unfold within, is_finite; simpl;
    f_equal; by destruct (lo <=? value)%float, (value <=? hi)%float,
                         (is_nan value), (is_infinity value).
Qed.


Lemma precheck_skip `{Builtins} d reading : precheck reading = Skip → rejected d reading.
Proof.
  unfold precheck.
  destruct (reading !! "equipment_id") as [equipment_id|] eqn:He;
    [|intros _; eapply (missing_field _ _ "equipment_id"); [set_solver | done]].
  destruct (reading !! "metric_name") as [metric_name|] eqn:Hn;
    [|intros _; eapply (missing_field _ _ "metric_name"); [set_solver | done]].
  destruct (reading !! "metric_value") as [raw|] eqn:Hv;
    [|intros _; eapply (missing_field _ _ "metric_value"); [set_solver | done]].
  destruct (reading !! "time") as [time|] eqn:Ht;
    [|intros _; eapply (missing_field _ _ "time"); [set_solver | done]].
  destruct (py_float raw) as [metric_value|e] eqn:Hf.
  - destruct (parse_time time) as [timestamp|] eqn:Hp.
    + rewrite is_value_reasonable_spec.
      destruct metric_name as [| | |name| |items] eqn:Hname;
        try (intros _; by eapply unhashable_metric_name);
        (destruct (within _ _) eqn:Hin; simpl;
         [ destruct (is_finite metric_value) eqn:Hfin; [done|]; intros _;
           eapply not_a_finite_number; [done|]; intros f0; rewrite Hf; by intros [= <-]
         | intros _; by eapply out_of_range ]).
    + intros _. destruct time as [| | |s| |]; try done. simpl in Hp.
      destruct (fromisoformat (replace_Z s)) eqn:Hiso; [done|].
      by eapply unparseable_time.
  - intros _. eapply not_a_finite_number; [done|]. intros f. by rewrite Hf.
Qed.

Lemma precheck_candidate `{Builtins} d reading r :
  precheck reading = Candidate r →
  reading !! "equipment_id" = Some (Reading.equipment_id r)
  ∧ (rejected d reading → first_equipment (Reading.equipment_id r) d = None).
Proof.
  unfold precheck.
  destruct (reading !! "equipment_id") as [equipment_id|] eqn:He; [|done].
  destruct (reading !! "metric_name") as [metric_name|] eqn:Hn; [|done].
  destruct (reading !! "metric_value") as [raw|] eqn:Hv; [|done].
  destruct (reading !! "time") as [time|] eqn:Ht; [|done].
  destruct (py_float raw) as [metric_value|e] eqn:Hf;
    [|by destruct (validation_errors e)].
  destruct (parse_time time) as [timestamp|] eqn:Hp; [|done].
  rewrite is_value_reasonable_spec.
  destruct metric_name as [| | |name| |items] eqn:Hname; try done;
    (destruct (within _ _) eqn:Hin; simpl; [|done];
     destruct (is_finite metric_value) eqn:Hfin; [|done];
     intros [= <-]; simpl; split; [done|];
     intros [field Hfield Hmissing|v Hv' Hnan|s Ht' Hiso|items Hn'|eid He' Hnone
            |name' v f0 Hn' Hv' Hf' Hout];
     [ repeat (apply elem_of_cons in Hfield as [->|Hfield]; [congruence|]);
       by apply elem_of_nil in Hfield
     | assert (v = raw) as -> by congruence; specialize (Hnan _ Hf); congruence
     | assert (time = VStr s) as -> by congruence; simpl in Hp; rewrite Hiso in Hp; done
     | congruence
     | congruence
     | assert (v = raw) as -> by congruence; congruence ]).
Qed.

(** A record is turned down exactly for one of the reasons of [rejected],
    and is then counted once. *)
Lemma validate_reading_rejected `{Builtins} reading p v p' :
  validate_reading reading p = (Return v, p') →
  (v = None ↔ rejected (db p) reading)
  ∧ invalid (stats p') = invalid (stats p) + match v with Some _ => 0 | None => 1 end.
Proof.
  intros Hrun. split.
  - rewrite validate_reading_unfold in Hrun.
    destruct (precheck reading) as [|e|r] eqn:Hpre; [| done |].
    + injection Hrun as <- _. split; [intros _; by apply precheck_skip | done].
    + pose proof (precheck_candidate (db p) reading r Hpre) as [He Hrej].
      assert (Hans : ∀ d', equipment d' = equipment (db p) →
                           answer r d' (stats p) = (Return v, p') →
                           v = None ↔ rejected (db p) reading).
      { intros d' Heq. unfold answer, registered.
        assert (first_equipment (Reading.equipment_id r) d'
                = first_equipment (Reading.equipment_id r) (db p)) as ->.
        { unfold first_equipment. by rewrite Heq. }
        destruct (first_equipment (Reading.equipment_id r) (db p)) as [device|] eqn:Hfirst.
        - rewrite bool_decide_eq_true_2 by eauto. intros [= <- _].
          split; [done|]. intros Hr. by specialize (Hrej Hr).
        - rewrite bool_decide_eq_false_2 by (by intros [? [=]]). intros [= <- _].
          split; [|done]. intros _. by eapply unknown_equipment. }
      destruct (faults (db p)) as [|[] fs] eqn:Hd; [| done |];
        (eapply Hans; [|exact Hrun]; done).
  - apply validate_reading_count in Hrun as (_ & _ & _ & ->). by destruct v.
Qed.

(** ** Unparseable timestamps *)



(** ** Deduplication *)

Lemma drop_duplicates_sublist seen df : drop_duplicates seen df `sublist_of` df.
Proof.
  revert seen. induction df as [|r rest IH]; intros seen; simpl; [done|].
  case_bool_decide; [apply sublist_cons | apply sublist_skip]; apply IH.
Qed.




(** Every key of the frame stays, unless it was seen before. *)
Lemma drop_duplicates_complete seen df r :
  r ∈ df → subset r ∈ seen ∨ ∃ r', r' ∈ drop_duplicates seen df ∧ subset r' = subset r.
Proof.
  revert seen. induction df as [|x rest IH]; intros seen; simpl.
  - by intros ?%elem_of_nil.
  - intros [->|Hin]%elem_of_cons.
    + case_bool_decide as Hseen; [by left|]. right. exists x.
      split; [apply elem_of_cons; by left | done].
    + case_bool_decide as Hseen.
      * by apply IH with (seen := seen) in Hin.
      * apply IH with (seen := subset x :: seen) in Hin as [Hs|(r' & Hr' & Hkey)].
        -- apply elem_of_cons in Hs as [Hs|Hs]; [|by left].
           right. exists x. split; [apply elem_of_cons; by left | done].
        -- right. exists r'. split; [apply elem_of_cons; by right | done].
Qed.

(** ** A store that answers takes every batch *)






(** ** Running [ingest_batch] stage by stage *)

Lemma ingest_batch_unfold `{Builtins} cfg now processing_time readings p :
  ingest_batch cfg now processing_time readings p =
  match _validate_readings readings p with
  | (Raise e, p1) => (Return (Failure e (length readings)), p1)
  | (Return validated, p1) =>
      match _deduplicate validated p1 with
      | (Raise e, p2) => (Return (Failure e (length readings)), p2)
      | (Return unique, p2) =>
          match _check_timeliness cfg now unique with
          | Raise e => (Return (Failure e (length readings)), p2)
          | Return (on_time, late) =>
              match
                match on_time with [] => ret tt | _ => _bulk_insert cfg on_time end
                  (add_late_arrivals (length late) p2).2
              with
              | (Raise e, p4) => (Return (Failure e (length readings)), p4)
              | (Return _, p4) =>
                  let p5 := (_record_quality_metrics cfg processing_time p4).2 in
                  (Return (Success (length readings) (length on_time) (invalid (stats p5))
                             (duplicates (stats p5)) (late_arrivals (stats p5))
                             processing_time), p5)
              end
          end
      end
  end.
Proof.
  unfold ingest_batch, try_except. rewrite bind_eq.
  destruct (_validate_readings readings p) as [[validated|e] p1]; [|done].
  rewrite bind_eq. destruct (_deduplicate validated p1) as [[unique|e] p2]; [|done].
  rewrite bind_lift.
  destruct (_check_timeliness cfg now unique) as [[on_time late]|e]; [|done].
  rewrite bind_eq. unfold add_late_arrivals at 1, update_stats, modify. simpl.
  rewrite bind_eq.
  destruct (match on_time with [] => ret tt | _ => _bulk_insert cfg on_time end _)
    as [[[]|e] p4]; [|done].
  rewrite bind_eq.
  pose proof (record_quality_metrics_returns cfg processing_time p4) as Hr.
  destruct (_record_quality_metrics cfg processing_time p4) as [o p5]. simpl in *.
  by subst o.
Qed.

(** A batch of one record that validation turns down before it asks the
    registry. *)
Lemma ingest_batch_single_skip `{Builtins} cfg now processing_time reading p :
  precheck reading = Skip →
  (ingest_batch cfg now processing_time [reading] p).1
  = Return (Success 1 0 (invalid (stats p) + 1) (duplicates (stats p))
              (late_arrivals (stats p)) processing_time).
Proof.
  intros Hskip. rewrite ingest_batch_unfold.
  unfold _validate_readings. simpl validate_loop. rewrite !bind_eq.
  rewrite validate_reading_unfold, Hskip. simpl.
  pose proof (record_quality_metrics_same_stats cfg processing_time) as Hsame.
  match goal with
  | |- context [_record_quality_metrics cfg processing_time ?q] =>
      destruct (_record_quality_metrics cfg processing_time q) as [o p5] eqn:Hm
  end.
  apply (preserves_run same_stats) in Hm; [|done].
  unfold same_stats in Hm. simpl in *. rewrite Hm. simpl.
  by rewrite Nat.add_0_r.
Qed.

(** * The claims of the specification *)

(** Claim C7. Every violation that [check_thresholds] returns is a stored reading
    above its threshold whose severity follows from the ratio
    value/threshold by strict comparisons: above 2.0 emergency, above 1.5
    critical, above 1.2 warning, info otherwise. A reading of 25 against the
    threshold 10 is an emergency. *)
Theorem check_thresholds_severity cfg now equipment_id lookback_minutes d violations d' v :
  check_thresholds cfg now equipment_id lookback_minutes d = (Return violations, d') →
  v ∈ violations →
  rated (visible_readings d) v
  ∧ (ThresholdViolation.threshold v = 10.0%float →
     ThresholdViolation.metric_value v = 25.0%float →
     ThresholdViolation.severity v = EMERGENCY).
Proof.
  intros Hrun Hin. apply check_thresholds_rated in Hrun.
  rewrite Forall_forall in Hrun. specialize (Hrun v Hin).
  split; [done|]. intros Hthreshold Hvalue.
  destruct Hrun as (_ & _ & ->). by rewrite Hthreshold, Hvalue.
Qed.

Lemma check_thresholds_severity_witness :
  let v := ThresholdViolation.mk (example_now - 60000000)%Z "gas_concentration" 25.0%float
             (VStr "ppm") 10.0%float EMERGENCY in
  rated (visible_readings gas_session) v
  ∧ (ThresholdViolation.threshold v = 10.0%float →
     ThresholdViolation.metric_value v = 25.0%float →
     ThresholdViolation.severity v = EMERGENCY).
Proof.
  intros v.
  apply (check_thresholds_severity settings example_now "GAS-001" 30 gas_session [v]
           gas_session v).
  - vm_compute. reflexivity.
  - apply elem_of_cons. by left.
Defined.









(** Claim C1, the code at the failing input: a reading two hours old, with the
    cutoff at 60 minutes, is counted late and is not written; nothing is
    inserted, so the late count exceeds the inserted count. *)
Lemma late_reading_is_not_written :
  let run := ingest_batch (H := example_builtins) settings example_now 5 [late_reading]
               (__init__ test_session) in
  run.1 = Return (Success 1 0 0 0 1 5)
  ∧ sensor_readings (db run.2) = []
  ∧ new_readings (db run.2) = [].
Proof. repeat split; vm_compute; reflexivity. Qed.




Lemma rebase_init p : rebase (stats p) (__init__ (db p)) = p.
Proof.
  destruct p as [d [tp i dup l]]. unfold rebase, __init__, plus_stats. simpl.
  by rewrite !Nat.add_0_r.
Qed.

(** Claim C3, amended. The counters are cumulative: a call returns the counts
    that a newly constructed pipeline over the same session would return
    for the batch, added to the counters the pipeline had before the call.
    A call that returns success on a session with no fault to come and
    nothing pending appends exactly one quality metric, which carries these
    counters, whatever the batch. *)
Theorem ingest_batch_counters_cumulative `{Builtins} cfg now processing_time readings p :
  (∀ result,
     (ingest_batch cfg now processing_time readings (__init__ (db p))).1 = Return result →
     (ingest_batch cfg now processing_time readings p).1
     = Return (carried (stats p) result))
  ∧ (∀ p' total_received total_inserted invalid_count duplicate_count late_arrival_count ms,
       faults (db p) = [] → new_metrics (db p) = [] →
       ingest_batch cfg now processing_time readings p =
         (Return (Success total_received total_inserted invalid_count duplicate_count
                    late_arrival_count ms), p') →
       data_quality_metrics (db p') =
       data_quality_metrics (db p) ++ [{|
         DataQualityMetric.total_records_processed :=
           total_processed (stats p) + length readings;
         DataQualityMetric.invalid_records := invalid_count;
         DataQualityMetric.duplicate_records := duplicate_count;
         DataQualityMetric.late_arriving_records := late_arrival_count;
         DataQualityMetric.processing_time_ms := processing_time;
         DataQualityMetric.pipeline_stage := "ingestion";
         DataQualityMetric.duplicate_rate :=
           true_div duplicate_count (max (total_processed (stats p) + length readings) 1);
         DataQualityMetric.invalid_rate :=
           true_div invalid_count (max (total_processed (stats p) + length readings) 1)
       |}]).
Proof.
  split.
  - intros result Hrun.
    rewrite <-(rebase_init p) at 1. by apply ingest_batch_rebase.
  - intros p' total_received total_inserted invalid_count duplicate_count
      late_arrival_count ms Hd Hn Hrun.
    pose proof (ingest_batch_accounting _ _ _ _ _ _ _ _ _ _ _ _ Hrun)
      as (_ & _ & _ & _ & Htotal & _).
    rewrite <-Htotal. by eapply ingest_batch_records.
Qed.

Lemma ingest_batch_counters_cumulative_witness :
  let first := ingest_batch (H := example_builtins) settings example_now 5
                 [unknown_equipment_reading] (__init__ test_session) in
  (ingest_batch (H := example_builtins) settings example_now 5 [] first.2).1
  = Return (Success 0 0 1 0 0 5).
Proof.
  intros first.
  destruct (ingest_batch_counters_cumulative (H := example_builtins) settings example_now 5
              [] first.2) as [Hcarried _].
  apply (Hcarried (Success 0 0 0 0 0 5)). vm_compute. reflexivity.
Defined.

(** Claim C3 as stated fails: the second call reports the invalid record of the
    first although its own batch is empty, and a call that fails appends no
    quality metric. *)
Lemma ingest_batch_counters_not_reset :
  let first := ingest_batch (H := example_builtins) settings example_now 5
                 [unknown_equipment_reading] (__init__ test_session) in
  let second := ingest_batch (H := example_builtins) settings example_now 5 [] first.2 in
  let failed := ingest_batch (H := example_builtins) settings example_now 5
                  [no_time_reading] (__init__ test_session) in
  second.1 = Return (Success 0 0 1 0 0 5)
  ∧ failed.1 = Return (Failure TypeError 1)
  ∧ data_quality_metrics (db failed.2) = [].
Proof. repeat split; vm_compute; reflexivity. Qed.





Lemma precheck_hot `{Builtins} reading :
  reading !! "metric_name" = Some (VStr "temperature") →
  reading !! "metric_value" = Some (VFloat 999999.0) →
  precheck reading = Skip.
Proof.
  intros Hname Hvalue. unfold precheck. rewrite Hname, Hvalue.
  destruct (reading !! "equipment_id"); [|done].
  destruct (reading !! "time") as [time|]; [|done].
  simpl. destruct (parse_time time); [|done].
  by vm_compute.
Qed.

(** Claim C6, amended. When validation of a record completes, the record is
    turned down, and counted invalid once, exactly when a required field is
    missing, metric_value is not a finite number, time is a string that
    does not parse, metric_name cannot be hashed, the equipment is not in
    the registry, or the value is outside the inclusive range of its metric
    ([-50, 200] for temperature, [-1e6, 1e6] for a metric that is not
    listed). A reading with temperature = 999999.0 sent alone to a new
    pipeline gives invalid_count = 1 and total_inserted = 0. *)
Theorem validation_rejects_iff `{Builtins} :
  (∀ reading p v p',
     validate_reading reading p = (Return v, p') →
     (v = None ↔ rejected (db p) reading)
     ∧ invalid (stats p') = invalid (stats p) + match v with Some _ => 0 | None => 1 end)
  ∧ (∀ cfg now processing_time reading d,
       reading !! "metric_name" = Some (VStr "temperature") →
       reading !! "metric_value" = Some (VFloat 999999.0) →
       (ingest_batch cfg now processing_time [reading] (__init__ d)).1
       = Return (Success 1 0 1 0 0 processing_time)).
Proof.
  split.
  - intros reading p v p' Hrun. by apply validate_reading_rejected.
  - intros cfg now processing_time reading d Hname Hvalue.
    rewrite ingest_batch_single_skip; [done|]. by apply precheck_hot.
Qed.

Lemma validation_rejects_iff_witness :
  rejected (H := example_builtins) test_session unknown_equipment_reading
  ∧ (ingest_batch (H := example_builtins) settings example_now 5 [hot_reading]
       (__init__ test_session)).1 = Return (Success 1 0 1 0 0 5).
Proof.
  destruct (validation_rejects_iff (H := example_builtins)) as [Hiff Hexample].
  split.
  - eapply (Hiff unknown_equipment_reading (__init__ test_session) None).
    + vm_compute. reflexivity.
    + reflexivity.
  - apply Hexample; reflexivity.
Defined.

(** Claim C6 as stated fails: a record with the four required fields, a finite
    value inside the range and a registered equipment is turned down when
    its time is a string that does not parse, and when its metric_name is a
    dict. *)
Lemma rejected_for_other_reasons :
  (validate_reading (H := example_builtins) unparseable_time_reading
     (__init__ test_session)).1 = Return None
  ∧ (validate_reading (H := example_builtins) unhashable_name_reading
       (__init__ test_session)).1 = Return None
  ∧ (∀ field, field ∈ required_fields →
       is_Some (unparseable_time_reading !! field)
       ∧ is_Some (unhashable_name_reading !! field))
  ∧ py_float (H := example_builtins) (VFloat 25.0) = Return 25.0%float
  ∧ py_float (H := example_builtins) (VFloat 5.0) = Return 5.0%float
  ∧ is_finite 25.0 = true ∧ is_finite 5.0 = true
  ∧ is_Some (first_equipment (VStr "TEST-001") test_session)
  ∧ within (reasonable_range (VStr "temperature")) 25.0 = true
  ∧ within (reasonable_range (VDict [])) 5.0 = true.
Proof.
  split; [vm_compute; reflexivity|]. split; [vm_compute; reflexivity|].
  split.
  { intros field Hfield.
    repeat (apply elem_of_cons in Hfield as [->|Hfield]; [split; vm_compute; eauto|]).
    by apply elem_of_nil in Hfield. }
  repeat split; try (vm_compute; reflexivity). vm_compute. eauto.
Qed.




(** * Further properties: the ingestion pipeline *)

(** ** What a call may do to the tables *)

#[local] Instance writes_refl Q : Reflexive (writes Q).
Proof. intros d. unfold writes. repeat split; auto. Qed.

#[local] Instance writes_trans Q : Transitive (writes Q).
Proof.
  intros d1 d2 d3 (He & Hh & Ha & Hs & Hm & Hq & Hn) (He' & Hh' & Ha' & Hs' & Hm' & Hq' & Hn').
  unfold writes. repeat split; try congruence; try (by etrans); [|auto].
  intros row Hrow. destruct (Hq' row Hrow) as [Hrow'|?]; [|by right]. by apply Hq.
Qed.

Lemma writes_mono (Q Q' : SensorReading.t → Prop) d d' :
  (∀ row, Q row → Q' row) → writes Q d d' → writes Q' d d'.
Proof.
  intros HQ (He & Hh & Ha & Hs & Hm & Hq & Hn). unfold writes. repeat split; auto.
  intros row Hrow. destruct (Hq row Hrow); auto.
Qed.

Lemma writes_set_faults Q fs d : writes Q d (set_faults fs d).
Proof. unfold writes. repeat split; auto. Qed.

Lemma writes_round_trip {A} Q (f : Session → outcome A * Session) :
  (∀ d, writes Q d (f d).2) → preserves (writes Q) (round_trip f).
Proof.
  intros Hf d. right. unfold round_trip. destruct (faults d) as [|[] fs]; simpl.
  - apply Hf.
  - apply writes_set_faults.
  - etrans; [apply (writes_set_faults Q fs)|apply Hf].
Qed.

Lemma writes_insert_row Q d r : Q r → writes Q d (insert_row d r).
Proof.
  intros Hr. unfold insert_row. case_bool_decide as Hkey; [reflexivity|].
  unfold writes, visible_readings. simpl. repeat split; auto.
  - intros row. rewrite (assoc_L (++)), elem_of_app, list_elem_of_singleton.
    intros [?| ->]; auto.
  - intros Hnodup. rewrite (assoc_L (++)), fmap_app. apply NoDup_app.
    split; [done|]. split; [|apply NoDup_singleton].
    intros k Hk ->%list_elem_of_singleton. apply Hkey.
    exact Hk.
Qed.

Lemma writes_insert_rows Q rows d : Forall Q rows → writes Q d (foldl insert_row d rows).
Proof.
  revert d. induction rows as [|r rows IH]; intros d Hrows; simpl; [reflexivity|].
  apply Forall_cons in Hrows as [Hr Hrows].
  etrans; [by apply writes_insert_row | by apply IH].
Qed.

Lemma writes_execute_insert Q batch :
  (∀ rows, mapM id batch = Some rows → Forall Q rows) →
  preserves (writes Q) (execute_insert batch).
Proof.
  intros Hbatch. apply writes_round_trip. intros d.
  destruct (mapM id batch) as [rows|]; simpl; [|reflexivity].
  by apply writes_insert_rows, Hbatch.
Qed.

Lemma writes_commit Q : preserves (writes Q) commit.
Proof.
  apply writes_round_trip. intros d. unfold writes, visible_readings. simpl.
  rewrite !(right_id_L [] (++)). repeat split; auto; by apply prefix_app_r.
Qed.

Lemma writes_rollback Q : preserves (writes Q) rollback.
Proof.
  apply writes_round_trip. intros d. unfold writes, visible_readings. simpl.
  rewrite !(right_id_L [] (++)). repeat split; auto.
  - intros row Hrow. left. apply elem_of_app. by left.
  - rewrite fmap_app. by intros [? _]%NoDup_app.
Qed.

Lemma writes_query_equipment Q eid : preserves (writes Q) (query_equipment eid).
Proof. apply writes_round_trip. intros d. reflexivity. Qed.

Lemma writes_add Q metric : preserves (writes Q) (add metric).
Proof. apply unless_modify. intros d. unfold writes. repeat split; auto. Qed.

#[local] Instance all_writes_refl Q : Reflexive (all_writes Q).
Proof. intros p. unfold all_writes. reflexivity. Qed.

#[local] Instance all_writes_trans Q : Transitive (all_writes Q).
Proof. intros p q r. unfold all_writes. apply writes_trans. Qed.

Lemma all_writes_on_db {A} Q (m : M Session A) :
  preserves (writes Q) m → preserves (all_writes Q) (on_db m).
Proof. apply unless_zoom. by intros s t. Qed.

Lemma all_writes_update_stats Q f : preserves (all_writes Q) (update_stats f).
Proof. apply unless_modify. intros p. unfold all_writes. simpl. reflexivity. Qed.

Lemma all_writes_validate_reading `{Builtins} Q reading :
  preserves (all_writes Q) (validate_reading reading).
Proof.
  intros p. right. rewrite validate_reading_unfold. unfold answer, all_writes.
  destruct (precheck reading) as [|e|r]; simpl; try reflexivity.
  destruct (faults (db p)) as [|[] fs]; simpl; try destruct (registered _ _); simpl;
    try reflexivity; apply writes_set_faults.
Qed.

Lemma all_writes_validate_readings `{Builtins} Q readings :
  preserves (all_writes Q) (_validate_readings readings).
Proof.
  unfold _validate_readings. apply unless_bind; try apply _.
  - induction readings as [|reading rest IH]; simpl; [apply unless_ret; apply _|].
    apply unless_bind; try apply _; [apply all_writes_validate_reading|].
    intros v. apply unless_bind; try apply _; [apply IH|].
    intros vs. apply unless_ret; apply _.
  - intros vs. apply unless_bind; try apply _; [apply all_writes_update_stats|].
    intros _. apply unless_ret; apply _.
Qed.

Lemma all_writes_deduplicate Q readings : preserves (all_writes Q) (_deduplicate readings).
Proof.
  unfold _deduplicate. destruct readings; [apply unless_ret; apply _|].
  destruct (existsb _ _); [apply unless_raise; apply _|].
  apply unless_bind; try apply _; [apply all_writes_update_stats|].
  intros _. apply unless_ret; apply _.
Qed.

Lemma mapM_bind_params_bound batch rows :
  mapM id (map bind_params batch) = Some rows → Forall (bound batch) rows.
Proof.
  revert rows. induction batch as [|r batch IH]; intros rows; simpl.
  - intros [= <-]. constructor.
  - destruct (bind_params r) as [row|] eqn:Hr; simpl; [|done].
    destruct (mapM id (map bind_params batch)) as [rows'|]; simpl; [|done].
    intros [= <-]. constructor.
    + exists r. split; [apply elem_of_cons; by left | done].
    + eapply Forall_impl; [by apply IH|].
      intros row' (r' & Hr' & Hb). exists r'. split; [apply elem_of_cons; by right | done].
Qed.

Lemma slices_elem_of {A} fuel batch_size (readings : list A) chunk x :
  chunk ∈ slices fuel batch_size readings → x ∈ chunk → x ∈ readings.
Proof.
  revert readings. induction fuel as [|fuel IH]; intros readings; simpl.
  - by intros ?%elem_of_nil.
  - destruct readings as [|y readings]; [by intros ?%elem_of_nil|].
    intros [->|Hchunk]%elem_of_cons Hx.
    + eapply elem_of_sublist; [done | apply sublist_take].
    + eapply elem_of_sublist; [by eapply IH | apply sublist_drop].
Qed.

Lemma unless_bind_lift {S A B} bad (R : S → S → Prop) `{!Reflexive R}
    (o : outcome A) (k : A → M S B) :
  (∀ a, o = Return a → unless bad R (k a)) → unless bad R (bind (lift o) k).
Proof.
  intros Hk s. rewrite bind_lift. destruct o as [a|e]; [by apply Hk | right; reflexivity].
Qed.

Lemma unless_for_each_elem {S A} bad (R : S → S → Prop) `{!Reflexive R, !Transitive R}
    (l : list A) (body : A → M S unit) :
  (∀ x, x ∈ l → unless bad R (body x)) → unless bad R (for_each l body).
Proof.
  induction l as [|x l IH]; intros Hb; simpl; [by apply unless_ret|].
  apply unless_bind; try done.
  - apply Hb, elem_of_cons. by left.
  - intros _. apply IH. intros y Hy. apply Hb, elem_of_cons. by right.
Qed.

(** A handler that cleans up and raises again, when the clean-up itself may
    fail. *)
Lemma preserves_try_reraise {S A} (R : S → S → Prop) `{!Transitive R}
    (body : M S A) catches (cleanup : M S unit) :
  preserves R body → preserves R cleanup →
  preserves R (try_except body catches (fun e => bind cleanup (fun _ => raise e))).
Proof.
  intros Hb Hc s. right. unfold try_except.
  destruct (Hb s) as [(e & _ & [])|Hs].
  destruct (body s) as [[a|e] s1]; simpl in *; [done|].
  destruct (catches e); [|done]. unfold bind, raise.
  destruct (Hc s1) as [(e' & _ & [])|Hs1].
  destruct (cleanup s1) as [[[]|e'] s2]; simpl in *; by etrans.
Qed.

Lemma all_writes_bulk_insert cfg readings :
  preserves (all_writes (bound readings)) (_bulk_insert cfg readings).
Proof.
  unfold _bulk_insert. destruct readings as [|r0 rest]; [apply unless_ret; apply _|].
  set (readings := r0 :: rest).
  apply preserves_try_reraise; try apply _.
  - apply unless_bind_lift; try apply _. intros chunks Hchunks.
    apply unless_for_each_elem; try apply _. intros chunk Hchunk.
    assert (Hsub : ∀ x, x ∈ chunk → x ∈ readings).
    { unfold batches in Hchunks.
      destruct (MAX_BATCH_SIZE cfg =? 0)%Z; [done|].
      destruct (MAX_BATCH_SIZE cfg <? 0)%Z; injection Hchunks as <-.
      - by apply elem_of_nil in Hchunk.
      - intros x Hx.
        exact (slices_elem_of (length readings) (Z.to_nat (MAX_BATCH_SIZE cfg)) readings
                 chunk x Hchunk Hx). }
    apply unless_bind; try apply _.
    + apply all_writes_on_db, writes_execute_insert. intros rows Hrows.
      eapply Forall_impl; [by apply mapM_bind_params_bound|].
      intros row (r & Hr & Hb). exists r. split; [by apply Hsub | done].
    + intros _. apply all_writes_on_db, writes_commit.
  - apply all_writes_on_db, writes_rollback.
Qed.

Lemma all_writes_record_quality_metrics Q cfg processing_time :
  preserves (all_writes Q) (_record_quality_metrics cfg processing_time).
Proof.
  intros p. right. rewrite record_quality_metrics_cases.
  unfold all_writes, writes, visible_readings.
  destruct (faults (db p)) as [|[] fs]; simpl; rewrite ?(right_id_L [] (++));
    repeat split; auto; by apply prefix_app_r.
Qed.

(** ** The record that validation appends *)

Lemma accepted_equipment `{Builtins} d d' reading :
  equipment d' = equipment d → accepted d' reading = accepted d reading.
Proof.
  intros He. unfold accepted, registered, first_equipment. by rewrite He.
Qed.

Lemma omap_accepted_equipment `{Builtins} d d' (readings : list (gmap string pyval)) :
  equipment d' = equipment d → omap (accepted d') readings = omap (accepted d) readings.
Proof.
  intros He. induction readings as [|reading rest IH]; csimpl; [done|].
  by rewrite IH, (accepted_equipment d d').
Qed.

Lemma validate_reading_accepted `{Builtins} reading p v p' :
  validate_reading reading p = (Return v, p') → v = accepted (db p) reading.
Proof.
  rewrite validate_reading_unfold. unfold accepted, answer.
  destruct (precheck reading) as [|e|r]; [by intros [= <- _] | done |].
  destruct (faults (db p)) as [|[] fs]; [| done |].
  - destruct (registered _ _); by intros [= <- _].
  - replace (registered (Reading.equipment_id r) (set_faults fs (db p)))
      with (registered (Reading.equipment_id r) (db p)) by done.
    destruct (registered _ _); by intros [= <- _].
Qed.

Lemma validate_loop_accepted `{Builtins} readings p validated p' :
  validate_loop readings p = (Return validated, p') →
  validated = omap (accepted (db p)) readings.
Proof.
  revert p validated p'. induction readings as [|reading rest IH]; intros p validated p'; simpl.
  - by intros [= <- _].
  - intros Hrun.
    apply bind_run in Hrun as [(v & p1 & Hv & Hrun)|(e & _ & [=])].
    apply bind_run in Hrun as [(vs & p2 & Hvs & Hrun)|(e & _ & [=])].
    injection Hrun as <- <-.
    pose proof (preserves_run _ _ _ _ _ (all_writes_validate_reading (λ _, False) reading) Hv)
      as (He & _).
    apply validate_reading_accepted in Hv as ->. apply IH in Hvs as ->.
    rewrite (omap_accepted_equipment (db p) (db p1)) by done. by destruct (accepted _ _).
Qed.

(** ** Timeliness *)

Lemma py_ge_naive cfg now r :
  py_ge (Reading.time r) (cutoff cfg now) =
  match naive_time r with
  | Some _ => Return (on_time_at cfg now r)
  | None => Raise TypeError
  end.
Proof.
  unfold py_ge, comparable, on_time_at, naive_time, cutoff.
  destruct (Reading.time r) as [| | | |[t []]|]; simpl; done.
Qed.

Lemma py_lt_naive cfg now r :
  py_lt (Reading.time r) (cutoff cfg now) =
  match naive_time r with
  | Some _ => Return (late_at cfg now r)
  | None => Raise TypeError
  end.
Proof.
  unfold py_lt, comparable, late_at, naive_time, cutoff.
  destruct (Reading.time r) as [| | | |[t []]|]; simpl; done.
Qed.

Lemma comprehension_naive (test : Reading.t → outcome bool) (keep : Reading.t → bool)
    readings :
  (∀ r, test r = match naive_time r with
                 | Some _ => Return (keep r)
                 | None => Raise TypeError
                 end) →
  comprehension test readings =
  if forallb (λ r, bool_decide (is_Some (naive_time r))) readings
  then Return (List.filter keep readings)
  else Raise TypeError.
Proof.
  intros Htest. induction readings as [|r rest IH]; simpl; [done|].
  rewrite Htest, IH. destruct (naive_time r) as [t|]; simpl; [|done].
  destruct (forallb _ rest); [|done]. by destruct (keep r).
Qed.

Lemma check_timeliness_closed cfg now readings :
  _check_timeliness cfg now readings =
  if forallb (λ r, bool_decide (is_Some (naive_time r))) readings
  then Return (List.filter (on_time_at cfg now) readings,
               List.filter (late_at cfg now) readings)
  else Raise TypeError.
Proof.
  unfold _check_timeliness. destruct readings as [|r rest]; [done|].
  rewrite (comprehension_naive _ (on_time_at cfg now)) by apply py_ge_naive.
  rewrite (comprehension_naive _ (late_at cfg now)) by apply py_lt_naive.
  by destruct (forallb _ _).
Qed.

(** [_check_timeliness] needs every time to be a datetime without tzinfo, and
    then sorts each reading, in the order of the input, into exactly one of
    the two lists: on time when it is not older than the cutoff, late
    otherwise. Any other time (a datetime with tzinfo, [None], a number)
    makes it raise [TypeError]. *)
Theorem check_timeliness_partition cfg now readings :
  _check_timeliness cfg now readings =
    (if forallb (λ r, bool_decide (is_Some (naive_time r))) readings
     then Return (List.filter (on_time_at cfg now) readings,
                  List.filter (late_at cfg now) readings)
     else Raise TypeError)
  ∧ (∀ r, is_Some (naive_time r) → late_at cfg now r = negb (on_time_at cfg now r))
  ∧ (∀ r, naive_time r = None → on_time_at cfg now r = false ∧ late_at cfg now r = false).
Proof.
  split; [apply check_timeliness_closed|]. split.
  - intros r [t Ht]. unfold late_at, on_time_at. rewrite Ht. apply Z.ltb_antisym.
  - intros r Hr. unfold late_at, on_time_at. by rewrite Hr.
Qed.

Lemma elem_of_List_filter {A} (f : A → bool) (l : list A) x :
  x ∈ List.filter f l ↔ x ∈ l ∧ f x = true.
Proof. rewrite !list_elem_of_In. apply filter_In. Qed.

Lemma check_timeliness_returns cfg now readings on_time late :
  _check_timeliness cfg now readings = Return (on_time, late) →
  Forall (λ r, is_Some (naive_time r)) readings
  ∧ on_time = List.filter (on_time_at cfg now) readings
  ∧ late = List.filter (late_at cfg now) readings.
Proof.
  rewrite check_timeliness_closed.
  destruct (forallb _ readings) eqn:Hall; [|done]. intros [= <- <-]. split; [|done].
  apply Forall_forall. intros r Hr. rewrite List.forallb_forall in Hall.
  specialize (Hall r). rewrite <-list_elem_of_In in Hall.
  specialize (Hall Hr). by apply bool_decide_eq_true_1 in Hall.
Qed.

(** ** What [ingest_batch] writes *)

Lemma validate_readings_accepted `{Builtins} readings p validated p' :
  _validate_readings readings p = (Return validated, p') →
  validated = omap (accepted (db p)) readings.
Proof.
  unfold _validate_readings. intros Hrun.
  apply bind_run in Hrun as [(vs & p1 & Hvs & Hrun)|(e & _ & [=])].
  apply validate_loop_accepted in Hvs as ->. run_monad. by injection Hrun as <- _.
Qed.

Lemma deduplicate_returns readings p unique p' :
  _deduplicate readings p = (Return unique, p') → unique = drop_duplicates [] readings.
Proof.
  unfold _deduplicate. destruct readings as [|r rest]; [by intros [= <- _]|].
  destruct (existsb _ _); [done|]. run_monad. by intros [= <- _].
Qed.

Lemma ingest_batch_writes `{Builtins} cfg now processing_time readings p :
  all_writes (ingested cfg now (db p) readings) p
    (ingest_batch cfg now processing_time readings p).2.
Proof.
  set (Q := ingested cfg now (db p) readings).
  rewrite ingest_batch_unfold.
  destruct (_validate_readings readings p) as [[validated|e] p1] eqn:Hv;
    pose proof (preserves_run _ _ _ _ _ (all_writes_validate_readings Q readings) Hv) as H1;
    [|done].
  destruct (_deduplicate validated p1) as [[unique|e] p2] eqn:Hu;
    pose proof (preserves_run _ _ _ _ _ (all_writes_deduplicate Q validated) Hu) as H2;
    [|by etrans].
  destruct (_check_timeliness cfg now unique) as [[on_time late]|e] eqn:Ht; [|by etrans].
  set (p3 := (add_late_arrivals (length late) p2).2).
  assert (H3 : all_writes Q p p3) by (by etrans).
  assert (Hon : ∀ row, bound on_time row → Q row).
  { intros row (r & Hr & Hb).
    apply check_timeliness_returns in Ht as (_ & -> & _).
    apply elem_of_List_filter in Hr as [Hr Hfresh].
    apply deduplicate_returns in Hu as ->.
    pose proof (elem_of_sublist _ _ _ Hr (drop_duplicates_sublist [] validated)) as Hr'.
    apply validate_readings_accepted in Hv as ->.
    apply list_elem_of_omap in Hr' as (reading & Hreading & Hacc).
    by exists reading, r. }
  assert (H4 : ∀ o p4,
            match on_time with [] => ret tt | _ => _bulk_insert cfg on_time end p3 = (o, p4) →
            all_writes Q p p4).
  { intros o p4 Hi. etrans; [exact H3|]. destruct on_time as [|r0 rest].
    - injection Hi as _ <-. reflexivity.
    - apply (preserves_run _ _ _ _ _ (all_writes_bulk_insert cfg (r0 :: rest))) in Hi.
      by eapply writes_mono. }
  destruct (match on_time with [] => ret tt | _ => _bulk_insert cfg on_time end p3)
    as [[[]|e] p4] eqn:Hi; simpl; [|by eapply H4].
  etrans; [by eapply H4|].
  destruct (_record_quality_metrics cfg processing_time p4) as [o p5] eqn:Hm. simpl.
  by apply (preserves_run _ _ _ _ _ (all_writes_record_quality_metrics Q cfg processing_time))
    in Hm.
Qed.




(** Whatever it returns, a call of [ingest_batch] leaves the registry, the
    hourly aggregate and the alerts as they were, only appends to the
    committed readings and quality metrics, and keeps the keys
    (time, equipment_id, metric_name) of the readings distinct. *)
Theorem ingest_batch_keeps_tables `{Builtins} cfg now processing_time readings p :
  let d := db p in
  let d' := db (ingest_batch cfg now processing_time readings p).2 in
  equipment d' = equipment d
  ∧ sensor_readings_hourly d' = sensor_readings_hourly d
  ∧ alerts d' = alerts d
  ∧ sensor_readings d `prefix_of` sensor_readings d'
  ∧ data_quality_metrics d `prefix_of` data_quality_metrics d'
  ∧ (NoDup (key_of <$> visible_readings d) → NoDup (key_of <$> visible_readings d')).
Proof.
  destruct (ingest_batch_writes cfg now processing_time readings p)
    as (He & Hh & Ha & Hs & Hm & _ & Hn).
  by repeat split.
Qed.

Lemma ingest_batch_keeps_tables_witness :
  let run := ingest_batch (H := example_builtins) settings example_now 5
               [on_time_reading; on_time_reading; hot_reading] (__init__ test_session) in
  equipment (db run.2) = equipment test_session
  ∧ NoDup (key_of <$> visible_readings (db run.2)).
Proof.
  intros run.
  destruct (ingest_batch_keeps_tables (H := example_builtins) settings example_now 5
              [on_time_reading; on_time_reading; hot_reading] (__init__ test_session))
    as (He & _ & _ & _ & _ & Hn).
  split; [exact He|]. apply Hn. apply NoDup_nil_2.
Defined.



(** ** Times with a time zone *)

Lemma accepted_on_unique `{Builtins} d readings reading r :
  reading ∈ readings → accepted d reading = Some r →
  ∃ r', r' ∈ drop_duplicates [] (omap (accepted d) readings) ∧ subset r' = subset r.
Proof.
  intros Hreading Hacc.
  assert (Hr : r ∈ omap (accepted d) readings) by (apply list_elem_of_omap; eauto).
  destruct (drop_duplicates_complete [] _ r Hr) as [Hs|(r' & Hr' & Hkey)]; [|eauto].
  by apply elem_of_nil in Hs.
Qed.

Lemma subset_naive_time r r' : subset r' = subset r → naive_time r' = naive_time r.
Proof. unfold subset, naive_time. by intros [= _ _ ->]. Qed.


Lemma success_naive_times `{Builtins} cfg now processing_time readings p p' reading r
    total_received total_inserted invalid_count duplicate_count late_arrival_count ms :
  ingest_batch cfg now processing_time readings p =
    (Return (Success total_received total_inserted invalid_count duplicate_count
               late_arrival_count ms), p') →
  reading ∈ readings → accepted (db p) reading = Some r →
  ∃ t, Reading.time r = naive t.
Proof.
  intros Hrun Hreading Hacc.
  apply ingest_batch_stages in Hrun as [[e [=]]|Hstages].
  destruct Hstages as
    (validated & p1 & unique & p2 & on_time & late & p3 & p4 &
     Hv & Hu & Ht & _ & _ & _ & _).
  apply validate_readings_accepted in Hv as ->. apply deduplicate_returns in Hu as ->.
  apply check_timeliness_returns in Ht as (Hnaive & _ & _).
  destruct (accepted_on_unique _ _ _ _ Hreading Hacc) as (r' & Hr' & Hkey).
  rewrite Forall_forall in Hnaive. specialize (Hnaive r' Hr').
  rewrite (subset_naive_time r r') in Hnaive by done.
  destruct Hnaive as [t Ht]. exists t. unfold naive_time in Ht. unfold naive.
  destruct (Reading.time r) as [| | | |[t' []]|]; try done. by injection Ht as ->.
Qed.




(** ** Chunks *)

Lemma slices_concat {A} fuel batch_size (readings : list A) :
  0 < batch_size → length readings ≤ fuel →
  concat (slices fuel batch_size readings) = readings.
Proof.
  intros Hsize. revert readings. induction fuel as [|fuel IH]; intros readings Hfuel.
  - destruct readings; [done | simpl in Hfuel; lia].
  - destruct readings as [|x rest]; [done|].
    cbn [slices concat]. rewrite IH; [apply take_drop|].
    rewrite length_drop. simpl in *. lia.
Qed.

Lemma slices_lengths {A} fuel batch_size (readings : list A) :
  0 < batch_size →
  Forall (λ chunk, 0 < length chunk ≤ batch_size) (slices fuel batch_size readings).
Proof.
  intros Hsize. revert readings. induction fuel as [|fuel IH]; intros readings.
  - constructor.
  - destruct readings as [|x rest]; [constructor|].
    cbn [slices]. constructor; [|apply IH].
    rewrite length_take. simpl. lia.
Qed.

(** All chunks but the last are full. *)
Lemma slices_full {A} fuel batch_size (readings : list A) chunks last :
  0 < batch_size → length readings ≤ fuel →
  slices fuel batch_size readings = chunks ++ [last] →
  Forall (λ chunk, length chunk = batch_size) chunks.
Proof.
  intros Hsize. revert readings chunks.
  induction fuel as [|fuel IH]; intros readings chunks Hfuel.
  - simpl. by destruct chunks.
  - destruct readings as [|x rest]; [by destruct chunks|].
    cbn [slices]. destruct chunks as [|chunk chunks]; [constructor|].
    intros [= <- Hrest]. constructor.
    + rewrite length_take. apply Nat.min_l.
      destruct (decide (batch_size ≤ length (x :: rest))) as [|Hshort]; [done|].
      rewrite drop_ge in Hrest by lia.
      destruct fuel; simpl in Hrest; by destruct chunks.
    + eapply IH; [|done]. rewrite length_drop. simpl in *. lia.
Qed.


(** [_bulk_insert] sends the readings in the order of the list in chunks of
    [MAX_BATCH_SIZE], every reading in exactly one chunk, no chunk empty and
    all but the last full. A batch size of zero is an error of [range], and
    with a negative one no chunk is sent at all. *)
Theorem batches_cover {A} (batch_size : Z) (readings : list A) :
  ((0 < batch_size)%Z →
   ∃ chunks, batches batch_size readings = Return chunks
     ∧ concat chunks = readings
     ∧ Forall (λ chunk, 0 < length chunk ≤ Z.to_nat batch_size) chunks
     ∧ ∀ full last, chunks = full ++ [last] →
         Forall (λ chunk, length chunk = Z.to_nat batch_size) full)
  ∧ (batch_size = 0%Z → batches batch_size readings = Raise ValueError)
  ∧ ((batch_size < 0)%Z → batches batch_size readings = Return []).
Proof.
  unfold batches. split; [|split].
  - intros Hsize.
    rewrite (proj2 (Z.eqb_neq _ _)), (proj2 (Z.ltb_ge _ _)) by lia.
    eexists. split; [done|]. split; [apply slices_concat; lia|].
    split; [apply slices_lengths; lia|].
    intros full last Hchunks. eapply slices_full; [| |done]; lia.
  - by intros ->.
  - intros Hsize. by rewrite (proj2 (Z.eqb_neq _ _)), (proj2 (Z.ltb_lt _ _)) by lia.
Qed.

Lemma batches_cover_witness :
  (∃ chunks, batches 2 [1; 2; 3; 4; 5] = Return chunks ∧ concat chunks = [1; 2; 3; 4; 5])
  ∧ batches 0 [1; 2; 3] = Raise ValueError
  ∧ batches (-1) [1; 2; 3] = Return [].
Proof.
  destruct (batches_cover 2 [1; 2; 3; 4; 5]) as [Hpos _].
  destruct (batches_cover 0 [1; 2; 3]) as (_ & Hzero & _).
  destruct (batches_cover (-1) [1; 2; 3]) as (_ & _ & Hneg).
  split; [|split; [by apply Hzero | by apply Hneg]].
  destruct (Hpos ltac:(lia)) as (chunks & Hrun & Hcat & _). by exists chunks.
Defined.

(** ** What a successful call has written *)
















(** ** The counts of a successful call *)




(** ** Sending a batch again *)

#[local] Instance same_pending_refl : Reflexive same_pending.
Proof. by intros p. Qed.

#[local] Instance same_pending_trans : Transitive same_pending.
Proof. intros p q r. unfold same_pending. congruence. Qed.








(** * Further properties: the analytics engine *)

(** ** Maintenance risk *)

Lemma risk_level_counts_factors days_since_calibration alert_count reading_count :
  let score := risk_score_of days_since_calibration alert_count reading_count in
  (risk_level_of score).1
  = match risk_factors days_since_calibration alert_count reading_count with
    | 3 => "high"
    | 2 => "medium"
    | _ => "low"
    end
  ∧ (0 ≤ score ≤ 90)%Z.
Proof.
  unfold risk_score_of, risk_level_of, risk_factors.
  destruct days_since_calibration as [days|]; repeat case_bool_decide;
    repeat match goal with
           | |- context [(?a <? ?b)%Z] =>
               destruct (Z.ltb_spec a b); try lia
           | |- context [(?a =? ?b)%Z] =>
               destruct (Z.eqb_spec a b); try lia
           end; simpl; split; (done || lia).
Qed.

(** The level that [predict_maintenance] returns counts the risk factors
    (calibration more than 180 days ago, more than 10 alerts, more than 10000
    readings in 30 days): high needs all three, medium exactly two, and one
    factor alone, however large, gives low. The score is never above 90. *)
Theorem predict_maintenance_counts_factors now equipment_id d risk d' :
  predict_maintenance now equipment_id d = (Return (Result risk), d') →
  ∃ device,
    first_equipment (VStr equipment_id) d = Some device
    ∧ let days_since_calibration :=
        (λ last, (now - last) / 86400000000)%Z <$> Equipment.last_calibration_date device in
      let alert_count :=
        Z.of_nat (length (filter (λ a, Alert.equipment_id a = equipment_id
                                       ∧ (now - 30 * 86400000000 < Alert.triggered_at a)%Z)
                            (alerts d))) in
      let reading_count :=
        Z.of_nat (length (filter (λ r, SensorReading.equipment_id r = equipment_id
                                       ∧ (now - 30 * 86400000000 < SensorReading.time r)%Z)
                            (visible_readings d))) in
      MaintenanceRisk.risk_level risk
      = match risk_factors days_since_calibration alert_count reading_count with
        | 3 => "high"
        | 2 => "medium"
        | _ => "low"
        end
      ∧ (0 ≤ MaintenanceRisk.risk_score risk ≤ 90)%Z.
Proof.
  intros Hrun. apply predict_maintenance_result in Hrun as (device & Hfirst & Hrisk).
  exists device. split; [done|]. simpl in *.
  destruct Hrisk as (Hscore & Hlevel & _ & _). rewrite Hlevel, Hscore.
  apply risk_level_counts_factors.
Qed.

Lemma predict_maintenance_counts_factors_witness :
  ∃ risk,
    predict_maintenance example_now "GAS-001" worn_session
      = (Return (Result risk), worn_session)
    ∧ MaintenanceRisk.risk_level risk = "medium".
Proof.
  assert (Hrun : ∃ risk, predict_maintenance example_now "GAS-001" worn_session
                           = (Return (Result risk), worn_session))
    by (eexists; vm_compute; reflexivity).
  destruct Hrun as [risk Hrun]. exists risk. split; [exact Hrun|].
  destruct (predict_maintenance_counts_factors _ _ _ _ _ Hrun)
    as (device & Hfirst & Hlevel & _).
  injection Hfirst as <-. rewrite Hlevel. vm_compute. reflexivity.
Defined.

(** ** Anomaly detection *)

Lemma select_readings_returns equipment_id metric_name cutoff_time d df d' :
  select_readings equipment_id metric_name cutoff_time d = (Return df, d') →
  df = order_by_asc SensorReading.time
         (filter (λ r, SensorReading.equipment_id r = equipment_id
                       ∧ SensorReading.metric_name r = metric_name
                       ∧ (cutoff_time < SensorReading.time r)%Z)
            (visible_readings d)).
Proof.
  intros Hrun. unfold select_readings in Hrun.
  apply round_trip_returns in Hrun as [Hrun|[fs Hrun]]; by injection Hrun as <- _.
Qed.

Lemma collect_anomalies_sublist df idx model anomalies :
  collect_anomalies df idx model = Return anomalies →
  ((λ a, (Anomaly.time a, Anomaly.metric_value a)) <$> anomalies)
    `sublist_of` ((λ r, (SensorReading.time r, SensorReading.metric_value r)) <$> drop idx df)
  ∧ Forall (λ a, Anomaly.severity a = _calculate_severity (Anomaly.anomaly_score a)) anomalies
  ∧ ((λ a, ((-1)%Z, Anomaly.anomaly_score a)) <$> anomalies) `sublist_of` model.
Proof.
  revert idx anomalies. induction model as [|[pred score] model IH]; intros idx anomalies; simpl.
  - intros [= <-]. split; [apply sublist_nil_l|]. split; [constructor | constructor].
  - destruct (Z.eqb_spec pred (-1)) as [->|Hpred].
    + destruct (df !! idx) as [row|] eqn:Hrow; [|done].
      destruct (collect_anomalies df (S idx) model) as [rest|e] eqn:Hrest; [|done].
      intros [= <-]. destruct (IH _ _ Hrest) as (Hsub & Hsev & Hmodel).
      rewrite (drop_S _ _ _ Hrow). csimpl. split; [by apply sublist_skip|].
      split; [by constructor | by apply sublist_skip].
    + intros Hrest. destruct (IH _ _ Hrest) as (Hsub & Hsev & Hmodel).
      split; [|split; [done | by apply sublist_cons]].
      etrans; [exact Hsub|]. apply fmap_sublist.
      destruct (df !! idx) as [row|] eqn:Hrow.
      * rewrite (drop_S _ _ _ Hrow). by apply sublist_cons.
      * apply lookup_ge_None in Hrow. rewrite !drop_ge by lia. done.
Qed.

Lemma detect_anomalies_cases `{Numerics} now equipment_id metric_name lookback_hours d
    anomalies d' :
  detect_anomalies now equipment_id metric_name lookback_hours d = (Return anomalies, d') →
  anomalies = []
  ∨ (50 ≤ length (window now equipment_id metric_name lookback_hours d)
     ∧ ∃ model,
         isolation_forest
           (features (map SensorReading.metric_value
                        (window now equipment_id metric_name lookback_hours d)))
         = Return model
         ∧ collect_anomalies (window now equipment_id metric_name lookback_hours d) 0 model
           = Return anomalies).
Proof.
  unfold detect_anomalies, try_except.
  destruct (bind _ _ d) as [[found|e] d1] eqn:Hbody; simpl; [|intros [= <- _]; by left].
  intros [= -> ->].
  apply bind_run in Hbody as [(df & d2 & Hsel & Hrun)|(e & _ & [=])].
  apply select_readings_returns in Hsel. fold (window now equipment_id metric_name
    lookback_hours d) in Hsel. subst df.
  destruct (length _ <? 50) eqn:Hlen; [injection Hrun as <- _; by left|].
  apply Nat.ltb_ge in Hlen. right. split; [done|].
  rewrite bind_lift in Hrun.
  destruct (isolation_forest _) as [model|e] eqn:Hmodel; [|done].
  exists model. split; [done|]. unfold lift in Hrun. by injection Hrun as ->.
Qed.

(** Every anomaly that [detect_anomalies] returns is a reading of the window
    it queried (this equipment and metric, newer than the cutoff), with the
    time and value of that reading; the anomalies come oldest first, no
    reading twice, each with the severity of its score (critical below -0.5,
    warning below -0.3, info otherwise); and none is returned unless the
    window holds at least 50 readings. *)
Theorem detect_anomalies_sound `{Numerics} now equipment_id metric_name lookback_hours d
    anomalies d' :
  detect_anomalies now equipment_id metric_name lookback_hours d = (Return anomalies, d') →
  let df := window now equipment_id metric_name lookback_hours d in
  ((λ a, (Anomaly.time a, Anomaly.metric_value a)) <$> anomalies)
    `sublist_of` ((λ r, (SensorReading.time r, SensorReading.metric_value r)) <$> df)
  ∧ Forall (λ a, Anomaly.severity a =
                 if (Anomaly.anomaly_score a <? -0.5)%float then CRITICAL
                 else if (Anomaly.anomaly_score a <? -0.3)%float then WARNING
                 else INFO) anomalies
  ∧ (anomalies ≠ [] → 50 ≤ length df)
  ∧ Forall (λ r, r ∈ visible_readings d
                 ∧ SensorReading.equipment_id r = equipment_id
                 ∧ SensorReading.metric_name r = metric_name
                 ∧ (now - lookback_hours * 3600000000 < SensorReading.time r)%Z) df
  ∧ Sorted (λ a b, (SensorReading.time a ≤ SensorReading.time b)%Z) df.
Proof.
  intros Hrun df. split; [|split; [|split; [|split]]].
  - apply detect_anomalies_cases in Hrun as [->|(_ & model & _ & Hcollect)];
      [apply sublist_nil_l|].
    by apply collect_anomalies_sublist in Hcollect as (Hsub & _).
  - apply detect_anomalies_cases in Hrun as [->|(_ & model & _ & Hcollect)]; [constructor|].
    by apply collect_anomalies_sublist in Hcollect as (_ & Hsev & _).
  - intros Hsome. by apply detect_anomalies_cases in Hrun as [->|(Hlen & _)].
  - apply Forall_forall. intros r Hr. unfold df, window, order_by_asc in Hr.
    rewrite merge_sort_Permutation in Hr. by apply list_elem_of_filter in Hr as [? ?].
  - unfold df, window, order_by_asc. apply Sorted_merge_sort.
    intros a b. lia.
Qed.

Lemma detect_anomalies_sound_witness :
  let anomaly := Anomaly.mk (example_now - 50 * 60000000)%Z 5.0%float (-0.625)%float CRITICAL in
  detect_anomalies (H := alarmed_numerics) example_now "GAS-001" "gas_concentration" 24
    steady_session = (Return [anomaly], steady_session)
  ∧ 50 ≤ length (window example_now "GAS-001" "gas_concentration" 24 steady_session)
  ∧ Anomaly.severity anomaly = CRITICAL.
Proof.
  intros anomaly.
  assert (Hrun : detect_anomalies (H := alarmed_numerics) example_now "GAS-001"
                   "gas_concentration" 24 steady_session
                 = (Return [anomaly], steady_session)) by (vm_compute; reflexivity).
  split; [exact Hrun|].
  destruct (detect_anomalies_sound (H := alarmed_numerics) _ _ _ _ _ _ _ Hrun)
    as (_ & Hsev & Hlen & _).
  split; [by apply Hlen|]. by apply Forall_cons in Hsev as [-> _].
Defined.

(** ** Threshold violations *)

Lemma violations_of_nonzero metric_name threshold rows :
  (threshold =? 0)%float = false →
  violations_of metric_name threshold rows = Return (violation_of metric_name threshold <$> rows).
Proof.
  intros Hnz. induction rows as [|row rows IH]; simpl; [done|].
  unfold _threshold_severity. by rewrite Hnz, IH.
Qed.





Lemma violations_of_zero metric_name threshold rows :
  (threshold =? 0)%float = true →
  violations_of metric_name threshold rows
  = match rows with [] => Return [] | _ => Raise ZeroDivisionError end.
Proof.
  intros Hz. destruct rows as [|row rows]; simpl; [done|].
  unfold _threshold_severity. by rewrite Hz.
Qed.

Lemma newest_ten_nil rows : newest_ten rows = [] → rows = [].
Proof.
  unfold newest_ten, order_by_desc. intros Hnil.
  destruct (merge_sort _ rows) as [|r sorted] eqn:Hsorted; [|done].
  apply Permutation_nil. rewrite <-Hsorted. apply merge_sort_Permutation.
Qed.

Lemma check_each_zero_threshold now equipment_id lookback_minutes thresholds d :
  faults d = [] →
  Exists (λ mt : string * float,
            (mt.2 =? 0)%float = true
            ∧ exceeding now equipment_id lookback_minutes mt.1 mt.2 d ≠ []) thresholds →
  check_each equipment_id (now - lookback_minutes * 60000000) thresholds d
  = (Raise ZeroDivisionError, d).
Proof.
  intros Hd. induction thresholds as [|[metric_name threshold] rest IH]; intros Hex.
  { by apply Exists_nil in Hex. }
  cbn [check_each]. rewrite bind_eq.
  unfold select_violations at 1, round_trip at 1. rewrite Hd.
  fold (exceeding now equipment_id lookback_minutes metric_name threshold d).
  fold (newest_ten (exceeding now equipment_id lookback_minutes metric_name threshold d)).
  rewrite bind_lift.
  destruct (threshold =? 0)%float eqn:Hz.
  - rewrite violations_of_zero by done.
    destruct (newest_ten _) as [|row rows] eqn:Hten; [|done].
    apply newest_ten_nil in Hten.
    apply Exists_cons in Hex as [[_ Hsome]|Hex]; [done|].
    by rewrite bind_eq, IH.
  - rewrite violations_of_nonzero by done.
    apply Exists_cons in Hex as [[Hz' _]|Hex]; [simpl in Hz'; congruence|].
    by rewrite bind_eq, IH.
Qed.

(** A threshold of zero silences [check_thresholds]: as soon as one reading
    in the window is above a zero threshold, the division of its value by
    the threshold raises, the handler logs it, and the call returns the empty
    list, dropping the violations of the other metrics with it. *)
Theorem check_thresholds_zero_threshold cfg now equipment_id lookback_minutes d device :
  faults d = [] →
  first_equipment (VStr equipment_id) d = Some device →
  Exists (λ mt : string * float,
            (mt.2 =? 0)%float = true
            ∧ exceeding now equipment_id lookback_minutes mt.1 mt.2 d ≠ [])
    (_get_thresholds cfg (value (Equipment.equipment_type device))) →
  check_thresholds cfg now equipment_id lookback_minutes d = (Return [], d).
Proof.
  intros Hd Hfirst Hzero.
  unfold check_thresholds, try_except. rewrite bind_eq.
  unfold query_equipment at 1, round_trip at 1. rewrite Hd, Hfirst.
  by rewrite check_each_zero_threshold.
Qed.

Lemma check_thresholds_zero_threshold_witness :
  let cfg := {| MAX_BATCH_SIZE := 1000; MAX_DUPLICATE_RATE := 0.05;
                MAX_INVALID_RATE := 0.10; MAX_LATE_ARRIVAL_MINUTES := 60;
                GAS_DETECTION_THRESHOLD := 0.0; TEMPERATURE_THRESHOLD := 60.0;
                PRESSURE_THRESHOLD := 150.0 |} in
  check_thresholds cfg example_now "GAS-001" 30 gas_session = (Return [], gas_session).
Proof.
  intros cfg.
  apply (check_thresholds_zero_threshold cfg example_now "GAS-001" 30 gas_session
           (Equipment.mk "GAS-001" GAS_DETECTOR (Some (example_now - days 200)%Z)));
    [reflexivity | reflexivity |].
  apply Exists_cons_hd. split; [reflexivity|]. vm_compute. discriminate.
Defined.

(** * Further properties: the endpoints *)

(** ** Ingestion *)

Lemma model_dump_lookup (reading : api_ingestion.SensorReadingInput) :
  api_ingestion.model_dump reading !! "equipment_id"
    = Some (VStr (api_ingestion.equipment_id reading))
  ∧ api_ingestion.model_dump reading !! "metric_name"
    = Some (VStr (api_ingestion.metric_name reading))
  ∧ api_ingestion.model_dump reading !! "metric_value"
    = Some (VFloat (api_ingestion.metric_value reading))
  ∧ api_ingestion.model_dump reading !! "time"
    = Some (VDatetime (api_ingestion.time reading))
  ∧ api_ingestion.model_dump reading !! "metric_unit"
    = Some (from_option VStr VNone (api_ingestion.metric_unit reading))
  ∧ api_ingestion.model_dump reading !! "reading_status"
    = Some (VStr (api_ingestion.reading_status reading))
  ∧ api_ingestion.model_dump reading !! "metadata"
    = Some (VDict (api_ingestion.metadata reading)).
Proof. repeat split; reflexivity. Qed.

Lemma precheck_model_dump `{Builtins} reading :
  precheck (api_ingestion.model_dump reading)
  = if reasonable reading then Candidate (record_of reading) else Skip.
Proof.
  destruct (model_dump_lookup reading) as (He & Hn & Hv & Ht & Hu & Hs & Hm).
  unfold precheck. rewrite He, Hn, Hv, Ht, Hu, Hs, Hm. simpl.
  rewrite is_value_reasonable_spec. unfold reasonable. by destruct (_ && _).
Qed.

Lemma accepted_model_dump `{Builtins} d reading :
  accepted d (api_ingestion.model_dump reading)
  = if reasonable reading
       && bool_decide (is_Some (first_equipment (VStr (api_ingestion.equipment_id reading)) d))
    then Some (record_of reading) else None.
Proof.
  unfold accepted. rewrite precheck_model_dump.
  destruct (reasonable reading); [|done]. unfold registered. simpl.
  by destruct (bool_decide _).
Qed.

(** A reading that comes through the API has every field, a float as its
    value and a datetime as its time: validation turns it down exactly when
    the value is not finite or outside the range of the metric, or the
    equipment is not in the registry, and otherwise appends the record with
    the reading's fields. *)
Theorem api_reading_rejected_iff `{Builtins} reading p v p' :
  validate_reading (api_ingestion.model_dump reading) p = (Return v, p') →
  (v = None ↔
     reasonable reading = false
     ∨ first_equipment (VStr (api_ingestion.equipment_id reading)) (db p) = None)
  ∧ (v ≠ None → v = Some (record_of reading))
  ∧ invalid (stats p') = invalid (stats p) + match v with Some _ => 0 | None => 1 end.
Proof.
  intros Hrun.
  pose proof (validate_reading_count _ _ _ _ Hrun) as (_ & _ & _ & Hcount).
  apply validate_reading_accepted in Hrun as ->. rewrite accepted_model_dump in *.
  set (found := first_equipment (VStr (api_ingestion.equipment_id reading)) (db p)) in *.
  destruct (reasonable reading), found as [device|]; simpl in *;
    (split; [|split; [done | by rewrite Hcount]]).
  - split; [done|]. by intros [?|?].
  - split; [by right | done].
  - split; [by left | done].
  - split; [by left | done].
Qed.

Lemma api_reading_rejected_iff_witness :
  let reading := {| api_ingestion.equipment_id := "TEST-001";
                    api_ingestion.metric_name := "temperature";
                    api_ingestion.metric_value := 250.0%float;
                    api_ingestion.metric_unit := Some "celsius";
                    api_ingestion.time := mk_datetime example_now false;
                    api_ingestion.reading_status := "normal";
                    api_ingestion.metadata := [] |} in
  (validate_reading (H := example_builtins) (api_ingestion.model_dump reading)
     (__init__ test_session)).1 = Return None
  ∧ reasonable reading = false.
Proof.
  intros reading.
  assert (Hrun : ∃ p', validate_reading (H := example_builtins)
                         (api_ingestion.model_dump reading) (__init__ test_session)
                       = (Return None, p')) by (eexists; vm_compute; reflexivity).
  destruct Hrun as [p' Hrun]. split; [by rewrite Hrun|].
  destruct (api_reading_rejected_iff (H := example_builtins) _ _ _ _ Hrun) as ([Hwhy _] & _).
  destruct (Hwhy eq_refl) as [Hbad|Hnone]; [exact Hbad|].
  vm_compute in Hnone. discriminate Hnone.
Defined.

(** With the pipeline of [ ingestion.py], [POST /batch] builds a new
    pipeline for every request, so the counts in its response are those of
    the request alone: the number of readings sent
    is the sum of the inserted, the invalid, the duplicate and the late ones.
    It answers with these counts and schedules one threshold check for the
    readings, or raises an [HTTPException] with status 500 that wraps the
    pipeline's error and schedules nothing; no other status and no other
    exception leaves it. *)
Theorem api_ingest_batch_accounts `{Builtins} cfg now processing_time request
    background_tasks db :
  match api_ingestion.ingest_batch (H := api_ingestion.services_ingestion) cfg now
          processing_time request background_tasks db with
  | (fastapi.Respond r, background_tasks', db') =>
      api_ingestion.success r = true
      ∧ api_ingestion.total_received r = length (api_ingestion.readings request)
      ∧ api_ingestion.total_received r
        = api_ingestion.total_inserted r + api_ingestion.invalid_count r
          + api_ingestion.duplicate_count r + api_ingestion.late_arrival_count r
      ∧ api_ingestion.processing_time_ms r = processing_time
      ∧ api_ingestion.message r
        = "Successfully processed " +:+ pretty (api_ingestion.total_inserted r) +:+ " readings"
      ∧ background_tasks'
        = background_tasks ++ [map api_ingestion.model_dump (api_ingestion.readings request)]
  | (fastapi.HTTPException status_code d, background_tasks', db') =>
      status_code = 500%Z ∧ background_tasks' = background_tasks
      ∧ ∃ e, d = fastapi.str_http 500 (fastapi.ingestion_failed e)
  end.
Proof.
  unfold api_ingestion.ingest_batch. simpl.
  destruct (ingest_batch_returns cfg now processing_time
              (map api_ingestion.model_dump (api_ingestion.readings request))
              (__init__ db)) as [result Hresult].
  destruct (ingest_batch _ _ _ _ (__init__ db)) as [o p'] eqn:Hrun. simpl in Hresult.
  subst o. destruct result as [tr ti ic dc lc ms|e n]; simpl; [|eauto].
  pose proof (ingest_batch_accounting _ _ _ _ _ _ _ _ _ _ _ _ Hrun)
    as (Htr & _ & _ & _ & _ & Hbalance).
  apply ingest_batch_stages in Hrun as [[e [=]]|Hstages].
  destruct Hstages as (? & ? & ? & ? & ? & ? & ? & ? & _ & _ & _ & _ & _ & _ & Hres).
  injection Hres as _ _ _ _ _ ->.
  simpl in Hbalance. rewrite length_map in Htr. repeat split; try done; lia.
Qed.

(** With the [DataIngestionPipeline] of [services/ingestion.py], which
    [from app.services.ingestion import ...] names, [POST /batch] answers
    every request with success, reports every reading as inserted and none
    as invalid, duplicate or late, and leaves the session as it was; the
    readings are not looked at. *)
Theorem api_ingest_batch_with_stub cfg now processing_time request background_tasks db :
  api_ingestion.ingest_batch (H := api_ingestion.services_ingestion_stub) cfg now
    processing_time request background_tasks db
  = (fastapi.Respond {|
       api_ingestion.success := true;
       api_ingestion.total_received := length (api_ingestion.readings request);
       api_ingestion.total_inserted := length (api_ingestion.readings request);
       api_ingestion.invalid_count := 0;
       api_ingestion.duplicate_count := 0;
       api_ingestion.late_arrival_count := 0;
       api_ingestion.processing_time_ms := 0;
       api_ingestion.message :=
         "Successfully processed " +:+ pretty (length (api_ingestion.readings request))
           +:+ " readings"
     |},
     background_tasks ++ [map api_ingestion.model_dump (api_ingestion.readings request)],
     db).
Proof.
  unfold api_ingestion.ingest_batch. simpl. by rewrite length_map.
Qed.

Lemma validate_loop_answers `{Builtins} readings p :
  faults (db p) = [] →
  Forall (λ reading, ∀ e, precheck reading ≠ Escape e) readings →
  ∃ st, validate_loop readings p
        = (Return (omap (accepted (db p)) readings), mkPipeline (db p) st).
Proof.
  intros Hd Hall. revert p Hd.
  induction Hall as [|reading rest Hreading Hrest IH]; intros p Hd; simpl.
  - exists (stats p). by destruct p.
  - rewrite bind_eq, validate_reading_unfold, Hd. unfold accepted, answer.
    destruct (precheck reading) as [|e|r] eqn:Hpre; [| by destruct (Hreading e) |].
    + destruct (IH (mkPipeline (db p) (one_more_invalid (stats p))) Hd) as [st Hrun].
      simpl in Hrun. rewrite bind_eq, Hrun. by exists st.
    + destruct (registered _ _).
      * destruct (IH (mkPipeline (db p) (stats p)) Hd) as [st Hrun].
        simpl in Hrun. rewrite bind_eq, Hrun. by exists st.
      * destruct (IH (mkPipeline (db p) (one_more_invalid (stats p))) Hd) as [st Hrun].
        simpl in Hrun. rewrite bind_eq, Hrun. by exists st.
Qed.

Lemma record_of_hashable (readings : list api_ingestion.SensorReadingInput) d `{Builtins} :
  existsb (fun r => let '(e, m, t) := subset r in
                    unhashable e || unhashable m || unhashable t)
    (omap (accepted d) (map api_ingestion.model_dump readings)) = false.
Proof.
  induction readings as [|reading rest IH]; csimpl; [done|].
  rewrite accepted_model_dump. by destruct (_ && _).
Qed.

Lemma deduplicate_hashable readings p :
  existsb (fun r => let '(e, m, t) := subset r in
                    unhashable e || unhashable m || unhashable t) readings = false →
  ∃ st, _deduplicate readings p
        = (Return (drop_duplicates [] readings), mkPipeline (db p) st).
Proof.
  intros Hhash. unfold _deduplicate. destruct readings as [|r rest].
  - exists (stats p). by destruct p.
  - rewrite Hhash. unfold add_duplicates, update_stats, modify, bind, ret. simpl. eauto.
Qed.

Lemma api_batch_not_naive_fails `{Builtins} cfg now processing_time readings reading db :
  faults db = [] →
  reading ∈ readings → reasonable reading = true →
  is_Some (first_equipment (VStr (api_ingestion.equipment_id reading)) db) →
  tz_aware (api_ingestion.time reading) = true →
  (ingest_batch cfg now processing_time (map api_ingestion.model_dump readings)
     (__init__ db)).1 = Return (Failure TypeError (length readings)).
Proof.
  intros Hd Hreading Hok Hreg Haware.
  rewrite ingest_batch_unfold, length_map. unfold _validate_readings. rewrite bind_eq.
  destruct (validate_loop_answers (map api_ingestion.model_dump readings) (__init__ db) Hd)
    as [st ->].
  { apply Forall_forall. intros raw (r0 & -> & _)%list_elem_of_fmap e.
    rewrite precheck_model_dump. by destruct (reasonable r0). }
  unfold add_total_processed, update_stats, modify, bind, ret.
  cbn -[_deduplicate _check_timeliness omap accepted].
  set (validated := omap (accepted db) (map api_ingestion.model_dump readings)).
  assert (Hr : record_of reading ∈ validated).
  { apply list_elem_of_omap. exists (api_ingestion.model_dump reading).
    split; [by apply list_elem_of_fmap_2|]. rewrite accepted_model_dump, Hok.
    by rewrite bool_decide_eq_true_2. }
  match goal with
  | |- context [_deduplicate validated ?q] =>
      destruct (deduplicate_hashable validated q (record_of_hashable readings db))
        as [st' ->]
  end.
  rewrite check_timeliness_closed.
  destruct (drop_duplicates_complete [] validated (record_of reading) Hr)
    as [Hs|(r' & Hr' & Hkey)]; [by apply elem_of_nil in Hs|].
  destruct (forallb _ (drop_duplicates [] validated)) eqn:Hall; [|done].
  rewrite List.forallb_forall in Hall. specialize (Hall r').
  rewrite <-list_elem_of_In in Hall. specialize (Hall Hr').
  apply bool_decide_eq_true_1 in Hall.
  rewrite (subset_naive_time (record_of reading) r') in Hall by done.
  unfold naive_time in Hall. simpl in Hall. rewrite Haware in Hall. by destruct Hall.
Qed.

(** A reading whose time carries a time zone (as the time
    ["2024-01-20T10:30:00Z"] of the documented example request does once
    pydantic has parsed it) passes validation and then fails the comparison
    with the cutoff, which has none: whenever a request holds such a reading
    with a reasonable value and a registered equipment, [POST /batch] (with
    the pipeline of [ ingestion.py]) raises the [HTTPException] with status
    500, for all its readings; on a store that answers the error is the
    [TypeError]. *)
Theorem api_ingest_batch_aware_time `{Builtins} cfg now processing_time request
    background_tasks db reading :
  reading ∈ api_ingestion.readings request → reasonable reading = true →
  is_Some (first_equipment (VStr (api_ingestion.equipment_id reading)) db) →
  tz_aware (api_ingestion.time reading) = true →
  (∃ e db',
     api_ingestion.ingest_batch (H := api_ingestion.services_ingestion) cfg now
       processing_time request background_tasks db
     = (fastapi.HTTPException 500 (fastapi.str_http 500 (fastapi.ingestion_failed e)),
        background_tasks, db'))
  ∧ (faults db = [] →
     ∃ db',
       api_ingestion.ingest_batch (H := api_ingestion.services_ingestion) cfg now
         processing_time request background_tasks db
       = (fastapi.HTTPException 500
            (fastapi.str_http 500 (fastapi.ingestion_failed TypeError)),
          background_tasks, db')).
Proof.
  intros Hreading Hok Hreg Haware. unfold api_ingestion.ingest_batch. simpl. split.
  - destruct (ingest_batch_returns cfg now processing_time
                (map api_ingestion.model_dump (api_ingestion.readings request))
                (__init__ db)) as [result Hresult].
    destruct (ingest_batch _ _ _ _ (__init__ db)) as [o p'] eqn:Hrun. simpl in Hresult.
    subst o. destruct result as [tr ti ic dc lc ms|e n]; simpl; [|eauto].
    destruct (success_naive_times _ _ _ _ _ _ (api_ingestion.model_dump reading)
                (record_of reading) _ _ _ _ _ _ Hrun) as [t Ht].
    + by apply list_elem_of_fmap_2.
    + simpl. rewrite accepted_model_dump, Hok. by rewrite bool_decide_eq_true_2.
    + simpl in Ht. unfold naive in Ht. injection Ht as Ht. rewrite Ht in Haware. done.
  - intros Hd.
    pose proof (api_batch_not_naive_fails cfg now processing_time _ _ _ Hd Hreading Hok Hreg
                  Haware) as Hfails.
    destruct (ingest_batch _ _ _ _ (__init__ db)) as [o p']. simpl in Hfails. subst o.
    simpl. eauto.
Qed.

Lemma api_ingest_batch_aware_time_witness :
  let reading := {| api_ingestion.equipment_id := "TEST-001";
                    api_ingestion.metric_name := "gas_concentration";
                    api_ingestion.metric_value := 8.5%float;
                    api_ingestion.metric_unit := Some "ppm";
                    api_ingestion.time := mk_datetime example_now true;
                    api_ingestion.reading_status := "normal";
                    api_ingestion.metadata := [] |} in
  let request := {| api_ingestion.readings := [reading];
                    api_ingestion.source := "sensor_gateway_01" |} in
  ∃ db',
    api_ingestion.ingest_batch
      (H := api_ingestion.services_ingestion (H := example_builtins)) settings
      example_now 5 request [] test_session
    = (fastapi.HTTPException 500
         (fastapi.str_http 500 (fastapi.ingestion_failed TypeError)), [], db').
Proof.
  intros reading request.
  destruct (api_ingest_batch_aware_time (H := example_builtins) settings example_now 5
              request [] test_session reading) as [_ Hfails].
  - apply elem_of_cons. by left.
  - vm_compute. reflexivity.
  - vm_compute. eauto.
  - reflexivity.
  - by apply Hfails.
Defined.

Lemma single_not_stored `{Builtins} cfg now processing_time reading p :
  faults (db p) = [] →
  (∀ e, precheck reading ≠ Escape e) →
  (accepted (db p) reading = None
   ∨ ∃ r, accepted (db p) reading = Some r ∧ is_Some (naive_time r)
          ∧ on_time_at cfg now r = false
          ∧ existsb (fun r => let '(e, m, t) := subset r in
                       unhashable e || unhashable m || unhashable t) [r] = false) →
  ∃ result p',
    ingest_batch cfg now processing_time [reading] p = (Return result, p')
    ∧ (∃ ic dc lc, result = Success 1 0 ic dc lc processing_time)
    ∧ visible_readings (db p') = visible_readings (db p).
Proof.
  intros Hd Hpre Hwhy. rewrite ingest_batch_unfold. unfold _validate_readings.
  rewrite bind_eq.
  assert (Hnoesc : Forall (λ reading, ∀ e, precheck reading ≠ Escape e) [reading]).
  { by repeat constructor. }
  destruct (validate_loop_answers [reading] p Hd Hnoesc) as [st ->].
  unfold add_total_processed, update_stats, modify, bind, ret.
  cbn -[_deduplicate _check_timeliness accepted _record_quality_metrics].
  destruct Hwhy as [->|(r & -> & [t Ht] & Hlate & Hh)].
  - cbn -[_record_quality_metrics].
    match goal with
    | |- context [_record_quality_metrics cfg processing_time ?q] =>
        pose proof (record_quality_metrics_cases cfg processing_time q) as Hm;
        destruct (_record_quality_metrics cfg processing_time q) as [o p5]
    end.
    simpl in Hm. rewrite Hd in Hm. injection Hm as -> ->. simpl.
    do 2 eexists. split; [done|]. split; [eauto|].
    unfold visible_readings. simpl. by rewrite (right_id_L [] (++)).
  - match goal with
    | |- context [_deduplicate [r] ?q] =>
        destruct (deduplicate_hashable [r] q Hh) as [st' ->]
    end.
    cbn [drop_duplicates].
    rewrite (bool_decide_eq_false_2 (subset r ∈ [])) by (by intros ?%elem_of_nil).
    rewrite check_timeliness_closed. cbn [forallb List.filter]. rewrite Ht, Hlate.
    cbn -[_record_quality_metrics].
    match goal with
    | |- context [_record_quality_metrics cfg processing_time ?q] =>
        pose proof (record_quality_metrics_cases cfg processing_time q) as Hm;
        destruct (_record_quality_metrics cfg processing_time q) as [o p5]
    end.
    simpl in Hm. rewrite Hd in Hm. injection Hm as -> ->. simpl.
    do 2 eexists. split; [done|]. split; [eauto|].
    unfold visible_readings. simpl. by rewrite (right_id_L [] (++)).
Qed.

(** [POST /single] (with the pipeline of [ ingestion.py]) reports success
    for a reading that is not stored: on a store that answers, a reading that validation turns down (its value is
    not reasonable or its equipment is not registered), or whose time has no
    time zone and lies before the late-arrival cutoff, gets the response
    ["Reading ingested successfully"] with [success] true, and the readings
    in the store are the same as before. *)
Theorem api_ingest_single_reports_success `{Builtins} cfg now processing_time reading db :
  faults db = [] →
  reasonable reading = false
  ∨ first_equipment (VStr (api_ingestion.equipment_id reading)) db = None
  ∨ (tz_aware (api_ingestion.time reading) = false
     ∧ (instant (api_ingestion.time reading)
        < now - MAX_LATE_ARRIVAL_MINUTES cfg * 60000000)%Z) →
  ∃ db',
    api_ingestion.ingest_single (H := api_ingestion.services_ingestion) cfg now
      processing_time reading db
    = (fastapi.Respond {|
         api_ingestion.single_success := true;
         api_ingestion.single_message := "Reading ingested successfully";
         api_ingestion.single_processing_time_ms := processing_time
       |}, db')
    ∧ visible_readings db' = visible_readings db.
Proof.
  intros Hd Hwhy. unfold api_ingestion.ingest_single. simpl.
  destruct (single_not_stored cfg now processing_time (api_ingestion.model_dump reading)
              (__init__ db)) as (result & p' & Hrun & (ic & dc & lc & ->) & Hsame).
  - exact Hd.
  - intros e. rewrite precheck_model_dump. by destruct (reasonable reading).
  - simpl. rewrite accepted_model_dump.
    destruct (reasonable reading) eqn:Hok; [|by left].
    destruct (first_equipment (VStr (api_ingestion.equipment_id reading)) db)
      as [device|] eqn:Hreg; [|by left].
    destruct Hwhy as [?|[?|[Hnaive Hlate]]]; [done..|].
    right. exists (record_of reading). simpl. split; [done|].
    unfold on_time_at, naive_time. simpl. rewrite Hnaive. split; [eauto|].
    split; [by apply Z.leb_gt | done].
  - rewrite Hrun. simpl. eauto.
Qed.

Lemma api_ingest_single_reports_success_witness :
  let reading := {| api_ingestion.equipment_id := "UNKNOWN-9";
                    api_ingestion.metric_name := "gas_concentration";
                    api_ingestion.metric_value := 8.5%float;
                    api_ingestion.metric_unit := Some "ppm";
                    api_ingestion.time := mk_datetime example_now false;
                    api_ingestion.reading_status := "normal";
                    api_ingestion.metadata := [] |} in
  ∃ db',
    api_ingestion.ingest_single
      (H := api_ingestion.services_ingestion (H := example_builtins)) settings
      example_now 5 reading test_session
    = (fastapi.Respond {|
         api_ingestion.single_success := true;
         api_ingestion.single_message := "Reading ingested successfully";
         api_ingestion.single_processing_time_ms := 5
       |}, db')
    ∧ visible_readings db' = visible_readings test_session.
Proof.
  intros reading.
  apply (api_ingest_single_reports_success (H := example_builtins) settings example_now 5
           reading test_session).
  - reflexivity.
  - right. left. vm_compute. reflexivity.
Defined.

(** ** Analytics *)

Lemma select_hourly_returns now equipment_id metric_name period_days d df d' :
  select_hourly equipment_id metric_name (now - period_days * 86400000000) d
    = (Return df, d') →
  df = hourly_window now equipment_id metric_name period_days d.
Proof.
  intros Hsel. unfold select_hourly in Hsel.
  apply round_trip_returns in Hsel as [Hsel|[fs Hsel]]; by injection Hsel as <- _.
Qed.

(** A summary that [analyze_trends] returns is made of at least 24 hourly
    rows, the rows of the equipment and the metric in the period, and counts
    them in [data_points]. Its direction has two values only: "increasing"
    when the fitted slope is above zero and "decreasing" in every other
    case, so a series that does not move at all (slope zero) is reported as
    decreasing. *)
Theorem analyze_trends_summary `{Numerics} now equipment_id metric_name period_days d
    summary d' :
  analyze_trends now equipment_id metric_name period_days d = (Return (Result summary), d') →
  let df := hourly_window now equipment_id metric_name period_days d in
  24 ≤ length df
  ∧ TrendSummary.data_points summary = length df
  ∧ polyfit_slope (map HourlyBucket.avg_value df)
    = Return (TrendSummary.trend_slope summary)
  ∧ TrendSummary.trend_direction summary
    = (if (0 <? TrendSummary.trend_slope summary)%float then "increasing" else "decreasing")
  ∧ (TrendSummary.trend_slope summary = 0%float
     → TrendSummary.trend_direction summary = "decreasing").
Proof.
  unfold analyze_trends, try_except.
  destruct (bind _ _ d) as [[r|e] d1] eqn:Hbody; simpl; [|done].
  intros [= -> ->].
  apply bind_run in Hbody as [(df & d2 & Hsel & Hrun)|(e & _ & [=])].
  apply select_hourly_returns in Hsel as ->.
  destruct (length _ <? 24) eqn:Hlen; [done|]. apply Nat.ltb_ge in Hlen.
  rewrite bind_lift in Hrun. destruct (polyfit_slope _) as [slope|] eqn:Hfit; [|done].
  injection Hrun as <- _. simpl. repeat split; try done. by intros ->.
Qed.

Lemma analyze_trends_summary_witness :
  ∃ summary,
    (analyze_trends (H := quiet_numerics) example_now "GAS-001" "gas_concentration" 30
       flat_session).1 = Return (Result summary)
    ∧ TrendSummary.trend_slope summary = 0%float
    ∧ TrendSummary.data_points summary = 24
    ∧ TrendSummary.trend_direction summary = "decreasing".
Proof.
  destruct (analyze_trends (H := quiet_numerics) example_now "GAS-001" "gas_concentration" 30
              flat_session) as [o d'] eqn:Hrun.
  assert (Ho : ∃ summary, o = Return (Result summary)
                          ∧ TrendSummary.trend_slope summary = 0%float
                          ∧ TrendSummary.data_points summary = 24).
  { vm_compute in Hrun. injection Hrun as <- _. eexists. repeat split. }
  destruct Ho as (summary & -> & Hslope & Hpoints).
  exists summary. split; [done|]. split; [done|]. split; [done|].
  by apply (analyze_trends_summary (H := quiet_numerics) _ _ _ _ _ _ _ Hrun).
Defined.



(** [GET /trends] and [GET /maintenance] turn every error result of the
    engine into an [HTTPException] with status 400 and the error as its
    detail, and raise nothing else: an equipment that is not registered is a
    400 with ["Equipment not found"], too little data is a 400, and so is a
    store that does not answer, whose detail is the text of the store's
    exception. No request gets a 404 or a 500. *)
Theorem api_analysis_errors_are_400 `{Numerics} now equipment_id d :
  (∀ metric_name period_days,
     match api_analytics.analyze_trends now equipment_id metric_name period_days d with
     | (fastapi.Respond trends, d') =>
         analyze_trends now equipment_id metric_name period_days d
         = (Return (Result trends), d')
     | (fastapi.HTTPException status_code detail, d') =>
         status_code = 400%Z
         ∧ ∃ error, detail = api_analytics.detail_of error
                    ∧ analyze_trends now equipment_id metric_name period_days d
                      = (Return (Error error), d')
     end)
  ∧ match api_analytics.predict_maintenance now equipment_id d with
    | (fastapi.Respond prediction, d') =>
        predict_maintenance now equipment_id d = (Return (Result prediction), d')
    | (fastapi.HTTPException status_code detail, d') =>
        status_code = 400%Z
        ∧ ∃ error, detail = api_analytics.detail_of error
                   ∧ predict_maintenance now equipment_id d = (Return (Error error), d')
    end
  ∧ (∀ metric_name period_days fs,
       faults d = true :: fs →
       (api_analytics.analyze_trends now equipment_id metric_name period_days d).1
       = fastapi.HTTPException 400 (fastapi.str_exn SQLAlchemyError))
  ∧ (∀ fs,
       faults d = true :: fs →
       (api_analytics.predict_maintenance now equipment_id d).1
       = fastapi.HTTPException 400 (fastapi.str_exn SQLAlchemyError))
  ∧ (faults d = [] → first_equipment (VStr equipment_id) d = None →
     api_analytics.predict_maintenance now equipment_id d
     = (fastapi.HTTPException 400 (fastapi.literal "Equipment not found"), d)).
Proof.
  split; [|split; [|split; [|split]]].
  - intros metric_name period_days. unfold api_analytics.analyze_trends.
    destruct (analyze_trends_returns now equipment_id metric_name period_days d)
      as [result Hret].
    destruct (analyze_trends now equipment_id metric_name period_days d) as [o d1].
    simpl in Hret. subst o. destruct result as [error|trends]; simpl; eauto.
  - unfold api_analytics.predict_maintenance.
    destruct (predict_maintenance_returns now equipment_id d) as [result Hret].
    destruct (predict_maintenance now equipment_id d) as [o d1].
    simpl in Hret. subst o. destruct result as [error|prediction]; simpl; eauto.
  - intros metric_name period_days fs Hd. unfold api_analytics.analyze_trends.
    by rewrite (analyze_trends_unreachable _ _ _ _ _ _ Hd).
  - intros fs Hd. unfold api_analytics.predict_maintenance, predict_maintenance, try_except,
      bind, query_equipment, round_trip.
    by rewrite Hd.
  - intros Hd Hfind. unfold api_analytics.predict_maintenance, predict_maintenance,
      try_except, bind, query_equipment, round_trip.
    by rewrite Hd, Hfind.
Qed.

Lemma api_analysis_errors_are_400_witness :
  api_analytics.predict_maintenance example_now "UNKNOWN-9" gas_session
  = (fastapi.HTTPException 400 (fastapi.literal "Equipment not found"), gas_session).
Proof.
  destruct (api_analysis_errors_are_400 (H := quiet_numerics) example_now "UNKNOWN-9"
              gas_session) as (_ & _ & _ & _ & Hunknown).
  apply Hunknown; reflexivity.
Defined.

(** ** The quality score and the metrics of the scheduled scan *)

Lemma float_ltb_leb (x y : float) : (x <? y)%float = true → (x <=? y)%float = true.
Proof.
  rewrite ltb_spec, leb_spec. unfold SFltb, SFleb.
  by destruct (SFcompare (Prim2SF x) (Prim2SF y)) as [[]|].
Qed.

(** [calculate_quality_score] returns a number from 0 to 100 for all counts,
    whatever the rates come to (the clamp also catches a score that is not a
    number), and 0 when nothing was processed. *)
Theorem calculate_quality_score_range invalid duplicates total :
  let score := api_ingestion.calculate_quality_score invalid duplicates total in
  (0 <=? score)%float = true ∧ (score <=? 100)%float = true
  ∧ api_ingestion.calculate_quality_score invalid duplicates 0 = 0%float.
Proof.
  unfold api_ingestion.calculate_quality_score. simpl.
  destruct (Nat.eqb_spec total 0) as [->|Htotal]; [done|].
  split; [|split; [|done]].
  - destruct (_ <? 100)%float eqn:Hcap;
      destruct (0 <? _)%float eqn:Hfloor; try reflexivity; by apply float_ltb_leb.
  - destruct (_ <? 100)%float eqn:Hcap;
      destruct (0 <? _)%float eqn:Hfloor; try reflexivity; by apply float_ltb_leb.
Qed.

(** Every metric that has a safety threshold for a type of equipment is one
    that the scheduled anomaly scan looks at for that type, in the same
    order, and for every type but the location tracker the two lists are the
    same; a location tracker is scanned for ["battery_level"] and has no
    threshold. A type that neither table knows has no metric in either. *)
Theorem scanned_metrics_cover_thresholds cfg equipment_type :
  (_get_thresholds cfg equipment_type).*1
  = (if bool_decide (equipment_type = "location_tracker") then []
     else celery_app.get_metrics_for_equipment_type equipment_type)
  ∧ (_get_thresholds cfg equipment_type).*1
    ⊆ celery_app.get_metrics_for_equipment_type equipment_type
  ∧ celery_app.get_metrics_for_equipment_type (value LOCATION_TRACKER) = ["battery_level"].
Proof.
  assert (Heq : (_get_thresholds cfg equipment_type).*1
                = (if bool_decide (equipment_type = "location_tracker") then []
                   else celery_app.get_metrics_for_equipment_type equipment_type)).
  { unfold _get_thresholds, celery_app.get_metrics_for_equipment_type. simpl.
    destruct (decide (equipment_type = "gas_detector")) as [->|Hgas]; [done|].
    destruct (decide (equipment_type = "temperature_sensor")) as [->|Htemp]; [done|].
    destruct (decide (equipment_type = "pressure_sensor")) as [->|Hpres]; [done|].
    destruct (decide (equipment_type = "air_quality_monitor")) as [->|Hair]; [done|].
    destruct (decide (equipment_type = "location_tracker")) as [->|Hloc]; [done|].
    rewrite bool_decide_eq_false_2 by done.
    by rewrite !lookup_insert_ne, lookup_empty by done. }
  split; [exact Heq|]. split; [|reflexivity].
  rewrite Heq. case_bool_decide; [apply list_subseteq_nil | done].
Qed.
